(** * Metrics derivation of [generate_image_graphs.py]

    A shallow embedding of the metrics engine of the Locust report
    generator: [load_stats], [get_aggregated],
    [estimate_sla_violation_pct] and [collect_metrics].

    Conventions of the embedding.
    - Python numbers (ints, Python floats, numpy scalars) are exact
      rationals [Q]: arithmetic does not round, and there are no
      infinities.  A cell of a data frame is either such a number or
      pandas' missing value [NaN].
    - A raised exception is a value of [exn]; a function that can raise
      returns [result].
    - The files under [RAW_DIR] are a finite map from the user count of
      a run to the frame [pd.read_csv] returns for its stats file. *)

From Stdlib Require Import ZArith QArith Qabs Lqa Lia Sorted Ascii.
From stdpp Require Import gmap strings list fin_maps.

Open Scope Z_scope.
Open Scope Q_scope.

(** ** Exceptions *)

Inductive exn : Type :=
| IndexError                 (* [df.iloc[-1]] on a frame without rows *)
| ZeroDivisionError          (* float division by zero *)
| ValueError                 (* [int(nan)], [max()] of an empty sequence *)
| KeyError (col : string).   (* [ep[col]] on a frame without that column *)

(** The name of the class of an exception, as Python reports it. *)
Definition exn_name (e : exn) : string :=
  match e with
  | IndexError => "IndexError"
  | ZeroDivisionError => "ZeroDivisionError"
  | ValueError => "ValueError"
  | KeyError _ => "KeyError"
  end.

Inductive result (A : Type) : Type :=
| Ok (a : A)
| Raise (e : exn).
Arguments Ok {A} a.
Arguments Raise {A} e.

Definition rbind {A B} (m : result A) (k : A -> result B) : result B :=
  match m with
  | Ok a => k a
  | Raise e => Raise e
  end.

Notation "x <<- m ;; k" := (rbind m (fun x => k))
  (at level 100, m at next level, right associativity).

(** ** Comparisons and division of numbers *)

Definition Qltb (x y : Q) : bool := negb (Qle_bool y x).

(** [x / y] on Python floats. *)
Definition py_div (x y : Q) : result Q :=
  if Qeq_bool y 0 then Raise ZeroDivisionError else Ok (x / y).

(** [int(x)]: truncation towards zero. *)
Definition trunc (x : Q) : Z := Z.quot (Qnum x) (Zpos (Qden x)).

(** ** Data frames *)

(** A cell of a numeric column: a number or pandas' missing value.
    Text in a numeric column (on which [float(val)], [max] or [int]
    would raise) has no counterpart here: the frames modelled are those
    whose count, latency and percentile columns parsed as numbers. *)
Inductive cell : Type :=
| Num (x : Q)
| NaN.

(** One row of a stats frame (what [df.iloc[i]] returns): the string
    column ["Name"] and the numeric columns by label.  Every frame
    modelled has the column ["Name"]; an absent numeric column is an
    absent key of [cells]. *)
Record Series : Type := mkSeries {
  Name : string;
  cells : gmap string cell;
}.

Definition DataFrame : Type := list Series.

(** [row.get(col, default)] *)
Definition get (row : Series) (col : string) (default : cell) : cell :=
  match cells row !! col with
  | Some c => c
  | None => default
  end.

(** ** Configuration *)

Definition USER_COUNTS : list Z := [10; 25; 50; 100; 200]%Z.
Definition SLA_THRESHOLD_MS : Q := 3000.

(** ** I/O helpers *)

(** [load_stats]: [None] when the file of the run does not exist. *)
Definition load_stats (raw : gmap Z DataFrame) (user_count : Z)
  : option DataFrame :=
  raw !! user_count.

Definition is_aggregated (r : Series) : bool :=
  String.eqb (Name r) "Aggregated".

(** [df.iloc[-1]] *)
Definition iloc_last (df : DataFrame) : result Series :=
  match last df with
  | Some r => Ok r
  | None => Raise IndexError
  end.

Definition get_aggregated (df : DataFrame) : result Series :=
  let agg := List.filter is_aggregated df in
  match agg with
  | r :: _ => Ok r
  | [] => iloc_last df
  end.

(** ** SLA estimator *)

Definition PercentilePoint : Type := (Z * Q)%type.

Definition pct_cols : list (Z * string) :=
  [ (50, "50%"); (66, "66%"); (75, "75%"); (80, "80%");
    (90, "90%"); (95, "95%"); (98, "98%"); (99, "99%");
    (100, "100%") ]%Z.

(** The value appended for one column, if any: the cell must be there
    ([val is not None]) and must not be missing ([not pd.isna(val)]). *)
Definition point_of (row : Series) (pc : Z * string) : option PercentilePoint :=
  match cells row !! (snd pc) with
  | Some (Num x) => Some (fst pc, x)
  | Some NaN => None
  | None => None
  end.

(** The list [points] built by the first loop. *)
Definition points (row : Series) : list PercentilePoint :=
  omap (point_of row) pct_cols.

(** [rt_lo < threshold_ms <= rt_hi] *)
Definition brackets (lo hi : PercentilePoint) (threshold_ms : Q) : bool :=
  Qltb (snd lo) threshold_ms && Qle_bool threshold_ms (snd hi).

(** The body of the scan once a pair brackets the threshold. *)
Definition interpolate (lo hi : PercentilePoint) (threshold_ms : Q) : result Q :=
  let '(p_lo, rt_lo) := lo in
  let '(p_hi, rt_hi) := hi in
  breach_pct <<-
    (if Qeq_bool rt_hi rt_lo then Ok (inject_Z p_lo)
     else
       frac <<- py_div (threshold_ms - rt_lo) (rt_hi - rt_lo) ;;
       Ok (inject_Z p_lo + frac * inject_Z (p_hi - p_lo))) ;;
  Ok (100 - breach_pct).

(** The loop [for i in range(len(points) - 1)]: [Some r] when the loop
    returns [r] at some pair, [None] when it runs to its end. *)
Fixpoint scan (pts : list PercentilePoint) (threshold_ms : Q)
  : option (result Q) :=
  match pts with
  | lo :: ((hi :: _) as rest) =>
      if brackets lo hi threshold_ms
      then Some (interpolate lo hi threshold_ms)
      else scan rest threshold_ms
  | _ => None
  end.

(** The estimator from the list [points] on. *)
Definition estimate_points (pts : list PercentilePoint) (threshold_ms : Q)
  : result Q :=
  match pts with
  | [] => Ok 0
  | p0 :: _ =>
      if forallb (fun p => Qltb (snd p) threshold_ms) pts then Ok 0
      else if Qle_bool threshold_ms (snd p0) then Ok 100
      else
        match scan pts threshold_ms with
        | Some r => r
        | None =>
            if Qle_bool threshold_ms (snd p0) then Ok 100 else Ok 0
        end
  end.

Definition estimate_sla_violation_pct (row : Series) (threshold_ms : Q)
  : result Q :=
  estimate_points (points row) threshold_ms.

(** ** Cross-run table *)

Record RunMetrics : Type := mkRunMetrics {
  Users : Z;
  Avg_ms : cell;
  Median_ms : cell;
  p95_ms : cell;
  p99_ms : cell;
  Max_ms : cell;
  Req_per_s : cell;
  Failures : Z;
  Total : Z;
  Error_pct : Q;
  SLA_Viol_pct : Q;
}.

(** [max(a, b)] on numbers: the first argument unless the second is
    greater. *)
Definition py_max (a b : Q) : Q := if Qltb a b then b else a.

(** [max(a, 1)] on a cell; [1 > nan] is false, so a missing value
    stays. *)
Definition max_1 (a : cell) : cell :=
  match a with
  | Num x => Num (py_max x 1)
  | NaN => NaN
  end.

(** The body of the loop of [collect_metrics] for a frame that was
    found.  [int(failures)] and [int(total)] raise on a missing value;
    the divisor of the error percentage is at least [1]. *)
Definition run_metrics (n : Z) (df : DataFrame) : result RunMetrics :=
  r <<- get_aggregated df ;;
  let total := max_1 (get r "Request Count" (Num 1)) in
  let failures := get r "Failure Count" (Num 0) in
  sla_viol <<- estimate_sla_violation_pct r SLA_THRESHOLD_MS ;;
  match failures, total with
  | Num f, Num t =>
      Ok {| Users := n;
            Avg_ms := get r "Average Response Time" (Num 0);
            Median_ms := get r "Median Response Time" (Num 0);
            p95_ms := get r "95%" (get r "95% Response Time" (Num 0));
            p99_ms := get r "99%" (get r "99% Response Time" (Num 0));
            Max_ms := get r "Max Response Time" (Num 0);
            Req_per_s := get r "Requests/s" (Num 0);
            Failures := trunc f;
            Total := trunc t;
            Error_pct := f / t * 100;
            SLA_Viol_pct := sla_viol |}
  | _, _ => Raise ValueError
  end.

(** [collect_metrics], with the list [USER_COUNTS] it iterates over and
    the raw directory as arguments. *)
Fixpoint collect_metrics (user_counts : list Z) (raw : gmap Z DataFrame)
  : result (list RunMetrics) :=
  match user_counts with
  | [] => Ok []
  | n :: ns =>
      match load_stats raw n with
      | None => collect_metrics ns raw
      | Some df =>
          m <<- run_metrics n df ;;
          rows <<- collect_metrics ns raw ;;
          Ok (m :: rows)
      end
  end.

(** ** Vocabulary of the statements *)

(** The value the scan returns at a pair, as the source writes it. *)
Definition crossing (lo hi : PercentilePoint) (T : Q) : Q :=
  100 - (inject_Z (fst lo)
         + (T - snd lo) / (snd hi - snd lo) * inject_Z (fst hi - fst lo)).

(** The first consecutive pair that brackets the threshold. *)
Fixpoint first_bracket (pts : list PercentilePoint) (T : Q)
  : option (PercentilePoint * PercentilePoint) :=
  match pts with
  | lo :: ((hi :: _) as rest) =>
      if brackets lo hi T then Some (lo, hi) else first_bracket rest T
  | _ => None
  end.

(** [is_first_bracket pts T i lo hi]: the pair at positions [i], [i+1]
    brackets [T] and no pair before it does. *)
Definition is_first_bracket (pts : list PercentilePoint) (T : Q)
    (i : nat) (lo hi : PercentilePoint) : Prop :=
  pts !! i = Some lo /\ pts !! S i = Some hi /\
  (snd lo < T /\ T <= snd hi) /\
  forall j a b, (j < i)%nat -> pts !! j = Some a -> pts !! S j = Some b ->
    ~ (snd a < T /\ T <= snd b).

(** Percentiles in ascending order. *)
Definition ascending (pts : list PercentilePoint) : Prop :=
  Sorted (fun a b : PercentilePoint => (fst a <= fst b)%Z) pts.

(** Percentiles are percentages. *)
Definition percentiles_in_range (pts : list PercentilePoint) : Prop :=
  Forall (fun p : PercentilePoint => (0 <= fst p <= 100)%Z) pts.

Definition within (eps x y : Q) : Prop := Qabs (x - y) <= eps.

(** A frame the loop body can process: it has an aggregate row, and
    the two count cells of that row hold numbers. *)
Definition processable (df : DataFrame) : Prop :=
  exists r f t,
    get_aggregated df = Ok r /\
    get r "Failure Count" (Num 0) = Num f /\
    get r "Request Count" (Num 1) = Num t.

(** The rows of the table, level by level. *)
Definition row_of_level (raw : gmap Z DataFrame) (n : Z) (m : RunMetrics)
  : Prop :=
  exists df, raw !! n = Some df /\ run_metrics n df = Ok m.

Definition present (raw : gmap Z DataFrame) (levels : list Z) : list Z :=
  filter (fun n => is_Some (raw !! n)) levels.

(** ** Sample data *)

Definition example_points : list PercentilePoint :=
  [(50%Z, 800); (95%Z, 2500); (99%Z, 4200); (100%Z, 5000)].

Definition example_row : Series :=
  {| Name := "Aggregated";
     cells := list_to_map
       [ ("50%"%string, Num 800); ("95%"%string, Num 2500);
         ("99%"%string, Num 4200); ("100%"%string, Num 5000) ] |}.

Definition endpoint_row (name : string) (requests failures : Z) : Series :=
  {| Name := name;
     cells := list_to_map
       [ ("Request Count"%string, Num (inject_Z requests));
         ("Failure Count"%string, Num (inject_Z failures)) ] |}.

Definition example_frame : DataFrame :=
  [ endpoint_row "/upload" 5 0;
    endpoint_row "Aggregated" 9 1;
    endpoint_row "/resize" 4 1 ].

Definition overcounted_frame : DataFrame := [endpoint_row "Aggregated" 0 2].

Definition example_raw : gmap Z DataFrame := {[ 10%Z := example_frame ]}.

(** * The charts and the persistence report

    The parts of the chart functions that compute what is drawn (which
    bars, which colours, which axis limits), and the loading loop of
    [test_persistence_service/plot_results.py]. *)

(** ** Palette *)

Definition BLUE : string := "#2563EB".
Definition GREEN : string := "#059669".
Definition RED : string := "#DC2626".
Definition PURPLE : string := "#7C3AED".
Definition AMBER : string := "#F59E0B".

(** ** [chart_sla_violation] *)

(** The colour of one bar: green below 5, amber below 20, red
    otherwise. *)
Definition sla_color (v : Q) : string :=
  if Qltb v 5 then GREEN
  else if Qltb v 20 then AMBER
  else RED.

(** The list [colors] the loop over [vals] builds. *)
Definition sla_colors (vals : list Q) : list string := map sla_color vals.

(** [max(vals)] on a sequence of numbers: the first element, replaced
    by each later element that is greater; [ValueError] on an empty
    sequence. *)
Definition py_max_list (vals : list Q) : result Q :=
  match vals with
  | [] => Raise ValueError
  | v :: vs => Ok (fold_left py_max vs v)
  end.

(** The arguments of [ax.set_ylim(0, max(max(vals) * 1.3, 10))]. *)
Definition sla_ylim (vals : list Q) : result (Q * Q) :=
  top <<- py_max_list vals ;;
  Ok (0, py_max (top * 1.3) 10).

(** ** [chart_per_endpoint] *)

(** [s.split(sep)] for a separator of one character. *)
Fixpoint split_on (sep : Ascii.ascii) (s : string) : list string :=
  match s with
  | EmptyString => [EmptyString]
  | String c rest =>
      if Ascii.eqb c sep then EmptyString :: split_on sep rest
      else
        match split_on sep rest with
        | seg :: segs => String c seg :: segs
        | [] => [String c EmptyString]
        end
  end.

Definition name_map : gmap string string :=
  {[ "/tools.descartes.teastore.webui/category?category=[id]&page=[n]"%string
       := "Category Page
(thumbnail grid)"%string;
     "/tools.descartes.teastore.webui/product?id=[id]"%string
       := "Product Detail
(full-size image)"%string;
     "/tools.descartes.teastore.webui/home"%string
       := "Home Page
(banner images)"%string ]}.

(** [name_map.get(n, n.split("/")[-1])]; [split] never returns an empty
    list, so the index [-1] is always in range. *)
Definition endpoint_label (n : string) : string :=
  let fallback :=
    match last (split_on "/"%char n) with
    | Some seg => seg
    | None => EmptyString
    end in
  match name_map !! n with
  | Some label => label
  | None => fallback
  end.

(** [colors[i % len(colors)]] with [colors = [BLUE, PURPLE, GREEN]]. *)
Definition endpoint_color (i : nat) : string :=
  match ([BLUE; PURPLE; GREEN] : list string) !! (i mod 3)%nat with
  | Some c => c
  | None => BLUE
  end.

(** [max(USER_COUNTS)] *)
Definition py_max_Z (l : list Z) : result Z :=
  match l with
  | [] => Raise ValueError
  | n :: ns => Ok (fold_left Z.max ns n)
  end.

(** [ep[col]] for a selection with rows: the cells of the column,
    [KeyError] when the frame has no such column (a frame read from a
    file has the same columns in every row). *)
Fixpoint column (col : string) (ep : list Series) : result (list cell) :=
  match ep with
  | [] => Ok []
  | r :: rest =>
      match cells r !! col with
      | Some c => cs <<- column col rest ;; Ok (c :: cs)
      | None => Raise (KeyError col)
      end
  end.

(** One bar of the per-endpoint chart. *)
Record Bar : Type := mkBar {
  bar_label : string;
  bar_length : cell;
  bar_color : string;
}.

(** [chart_per_endpoint] up to its call of [ax.barh]: [Ok None] when it
    returns without a chart, otherwise the bars passed to [ax.barh]
    (names, the column ["Average Response Time"], colours), in order.
    The arguments are evaluated left to right, so a missing column
    raises before the colours are built.  The value texts and the
    x-limit, computed from the same column afterwards, and the drawing
    itself are left out. *)
Definition chart_per_endpoint (user_counts : list Z) (raw : gmap Z DataFrame)
  : result (option (list Bar)) :=
  max_users <<- py_max_Z user_counts ;;
  match load_stats raw max_users with
  | None => Ok None
  | Some df =>
      let ep := List.filter (fun r => negb (is_aggregated r)) df in
      match ep with
      | [] => Ok None
      | _ :: _ =>
          let names := map (fun r => endpoint_label (Name r)) ep in
          lengths <<- column "Average Response Time" ep ;;
          Ok (Some (imap (fun i nl =>
                            {| bar_label := fst nl;
                               bar_length := snd nl;
                               bar_color := endpoint_color i |})
                         (zip names lengths)))
      end
  end.

(** ** The loading loop of [plot_results.py] *)

Module PlotResults.

Inductive error : Type :=
| IndexError                 (* [.iloc[0]] on a selection without rows *)
| KeyError (col : string).   (* [agg[col]] on a missing column *)

(** [inl e]: the script stops with [e]. *)
Definition M (A : Type) : Type := (error + A)%type.

Definition bind {A B} (m : M A) (k : A -> M B) : M B :=
  match m with
  | inl e => inl e
  | inr a => k a
  end.

(** [row[col]] *)
Definition getitem (row : Series) (col : string) : M cell :=
  match cells row !! col with
  | Some c => inr c
  | None => inl (KeyError col)
  end.

(** [df[df["Name"] == "Aggregated"].iloc[0]] *)
Definition aggregated (df : DataFrame) : M Series :=
  match List.filter is_aggregated df with
  | r :: _ => inr r
  | [] => inl IndexError
  end.

(** [(fails / total * 100) if total > 0 else 0]; a comparison with a
    missing value is false, arithmetic on one gives one. *)
Definition error_pct (fails total : cell) : cell :=
  match total with
  | Num t =>
      if Qltb 0 t then
        match fails with
        | Num f => Num (f / t * 100)
        | NaN => NaN
        end
      else Num 0
  | NaN => Num 0
  end.

Record SummaryRow : Type := mkSummaryRow {
  users : Z;
  rps : cell;
  avg_rt : cell;
  p50 : cell;
  p95 : cell;
  p99 : cell;
  err_pct : cell;
}.

Record EndpointRow : Type := mkEndpointRow {
  ep_users : Z;
  endpoint : string;
  ep_avg_rt : cell;
  ep_p95 : cell;
  ep_rps : cell;
}.

(** The entry appended to [summary] for one level. *)
Definition summary_row (u : Z) (df : DataFrame) : M SummaryRow :=
  bind (aggregated df) (fun agg =>
  bind (getitem agg "Request Count") (fun total =>
  bind (getitem agg "Failure Count") (fun fails =>
  bind (getitem agg "Requests/s") (fun v_rps =>
  bind (getitem agg "Average Response Time") (fun v_avg =>
  bind (getitem agg "50%") (fun v_p50 =>
  bind (getitem agg "95%") (fun v_p95 =>
  bind (getitem agg "99%") (fun v_p99 =>
  inr {| users := u; rps := v_rps; avg_rt := v_avg;
         p50 := v_p50; p95 := v_p95; p99 := v_p99;
         err_pct := error_pct fails total |})))))))).

(** The entry appended to [per_ep] for one row. *)
Definition endpoint_row_of (u : Z) (row : Series) : M EndpointRow :=
  bind (getitem row "Average Response Time") (fun v_avg =>
  bind (getitem row "95%") (fun v_p95 =>
  bind (getitem row "Requests/s") (fun v_rps =>
  inr {| ep_users := u; endpoint := Name row;
         ep_avg_rt := v_avg; ep_p95 := v_p95; ep_rps := v_rps |}))).

(** The inner loop over [df[df["Name"] != "Aggregated"]]. *)
Fixpoint endpoint_rows (u : Z) (rows : list Series) : M (list EndpointRow) :=
  match rows with
  | [] => inr []
  | row :: rest =>
      if is_aggregated row then endpoint_rows u rest
      else
        bind (endpoint_row_of u row) (fun e =>
        bind (endpoint_rows u rest) (fun es =>
        inr (e :: es)))
  end.

(** The loop over [USER_LEVELS]: the lists [summary] and [per_ep]
    once it has run, or the exception that stopped it. *)
Fixpoint load (levels : list Z) (raw : gmap Z DataFrame)
  : M (list SummaryRow * list EndpointRow) :=
  match levels with
  | [] => inr ([], [])
  | u :: us =>
      match raw !! u with
      | None => load us raw
      | Some df =>
          bind (summary_row u df) (fun srow =>
          bind (endpoint_rows u df) (fun eps =>
          bind (load us raw) (fun '(summary, per_ep) =>
          inr (srow :: summary, eps ++ per_ep))))
      end
  end.

End PlotResults.

(** ** Vocabulary of the further statements *)

(** The number a lookup yields, if any: neither an absent column nor a
    missing value has one. *)
Definition cell_number (c : option cell) : option Q :=
  match c with
  | Some (Num x) => Some x
  | Some NaN => None
  | None => None
  end.

(** The row with one cell set, and with one column removed. *)
Definition set_cell (row : Series) (col : string) (c : cell) : Series :=
  {| Name := Name row; cells := <[col := c]> (cells row) |}.

Definition drop_cell (row : Series) (col : string) : Series :=
  {| Name := Name row; cells := delete col (cells row) |}.

(** [sep.join(segs)] for a separator of one character. *)
Fixpoint join (sep : ascii) (segs : list string) : string :=
  match segs with
  | [] => EmptyString
  | seg :: rest =>
      match rest with
      | [] => seg
      | _ :: _ => String.append seg (String sep (join sep rest))
      end
  end.

(** The character [c] occurs in [s]. *)
Fixpoint occurs (c : ascii) (s : string) : Prop :=
  match s with
  | EmptyString => False
  | String a rest => a = c \/ occurs c rest
  end.

(** [mx] is a greatest element of [l]. *)
Definition is_max (mx : Z) (l : list Z) : Prop :=
  In mx l /\ forall n, In n l -> (n <= mx)%Z.

(** The rows [chart_per_endpoint] draws. *)
Definition endpoint_rows_of (df : DataFrame) : list Series :=
  List.filter (fun r => negb (is_aggregated r)) df.

(** A stats frame with the columns the persistence report reads. *)
Definition stats_row (name : string) (requests failures : Z) (avg : Q) : Series :=
  {| Name := name;
     cells := list_to_map
       [ ("Request Count"%string, Num (inject_Z requests));
         ("Failure Count"%string, Num (inject_Z failures));
         ("Requests/s"%string, Num 12);
         ("Average Response Time"%string, Num avg);
         ("50%"%string, Num 40);
         ("95%"%string, Num 90);
         ("99%"%string, Num 150) ] |}.

Definition persistence_frame : DataFrame :=
  [ stats_row "GET /users/[id]" 60 0 35;
    stats_row "POST /orders" 40 2 80;
    stats_row "Aggregated" 100 2 53 ].

Definition persistence_raw : gmap Z DataFrame := {[ 10%Z := persistence_frame ]}.

(** The pairs (level, endpoint name) the report lists for a level. *)
Definition endpoints_of_level (raw : gmap Z DataFrame) (u : Z)
  : list (Z * string) :=
  match raw !! u with
  | Some df => map (fun r => (u, Name r)) (endpoint_rows_of df)
  | None => []
  end.

(** ** The key metrics of [plot_results.py] *)

(** [df_sum["users"].min()] and [.max()]; no value on an empty table. *)
Definition users_min (summary : list PlotResults.SummaryRow) : option Z :=
  match map PlotResults.users summary with
  | [] => None
  | u :: us => Some (fold_left Z.min us u)
  end.

Definition users_max (summary : list PlotResults.SummaryRow) : option Z :=
  match map PlotResults.users summary with
  | [] => None
  | u :: us => Some (fold_left Z.max us u)
  end.

(** [df_sum[df_sum["users"] == bound].iloc[0]] *)
Definition first_with_users (bound : option Z)
    (summary : list PlotResults.SummaryRow)
  : PlotResults.M PlotResults.SummaryRow :=
  match bound with
  | None => inl PlotResults.IndexError
  | Some b =>
      match List.filter (fun s => Z.eqb (PlotResults.users s) b) summary with
      | r :: _ => inr r
      | [] => inl PlotResults.IndexError
      end
  end.

Definition baseline (summary : list PlotResults.SummaryRow)
  : PlotResults.M PlotResults.SummaryRow :=
  first_with_users (users_min summary) summary.

Definition peak (summary : list PlotResults.SummaryRow)
  : PlotResults.M PlotResults.SummaryRow :=
  first_with_users (users_max summary) summary.

(** The raw directory of the per-endpoint chart sample. *)
Definition endpoint_raw : gmap Z DataFrame := {[ 200%Z := persistence_frame ]}.

(** * Properties *)

(** ** Numbers *)

Lemma Qltb_lt (x y : Q) : Qltb x y = true <-> x < y.
Proof.
  unfold Qltb. rewrite negb_true_iff. split.
  - intros H. apply Qnot_le_lt. intros Hle.
    apply Qle_bool_iff in Hle. congruence.
  - intros H. destruct (Qle_bool y x) eqn:E; [|reflexivity].
    apply Qle_bool_iff in E. lra.
Qed.

Lemma Qltb_ge (x y : Q) : Qltb x y = false <-> y <= x.
Proof.
  unfold Qltb. rewrite negb_false_iff. apply Qle_bool_iff.
Qed.

Lemma Qle_bool_gt (x y : Q) : Qle_bool x y = false <-> y < x.
Proof.
  rewrite <- Qltb_lt. unfold Qltb.
  destruct (Qle_bool x y); simpl; split; congruence.
Qed.

Lemma brackets_spec (lo hi : PercentilePoint) (T : Q) :
  brackets lo hi T = true <-> snd lo < T /\ T <= snd hi.
Proof.
  unfold brackets. rewrite andb_true_iff, Qltb_lt, Qle_bool_iff. tauto.
Qed.

(** A pair that starts below the threshold and does not bracket it ends
    below the threshold. *)
Lemma brackets_false_below (lo hi : PercentilePoint) (T : Q) :
  snd lo < T -> brackets lo hi T = false -> snd hi < T.
Proof.
  intros Hlo Hnb. destruct (Qlt_le_dec (snd hi) T) as [?|Hge]; [assumption|].
  assert (brackets lo hi T = true) by (apply brackets_spec; tauto).
  congruence.
Qed.

Lemma trunc_inject_Z (n : Z) : trunc (inject_Z n) = n.
Proof. unfold trunc. simpl. apply Z.quot_1_r. Qed.

(** ** The scan *)

Lemma interpolate_bracket (lo hi : PercentilePoint) (T : Q) :
  snd lo < snd hi ->
  interpolate lo hi T = Ok (crossing lo hi T).
Proof.
  destruct lo as [p_lo rt_lo], hi as [p_hi rt_hi]. simpl. intros Hlt.
  unfold interpolate, py_div, crossing. simpl.
  destruct (Qeq_bool rt_hi rt_lo) eqn:E.
  - apply Qeq_bool_iff in E. lra.
  - destruct (Qeq_bool (rt_hi - rt_lo) 0) eqn:E0.
    + apply Qeq_bool_iff in E0. lra.
    + reflexivity.
Qed.

Lemma interpolate_degenerate (lo hi : PercentilePoint) (T : Q) :
  snd hi == snd lo ->
  interpolate lo hi T = Ok (100 - inject_Z (fst lo)).
Proof.
  destruct lo as [p_lo rt_lo], hi as [p_hi rt_hi]. simpl. intros Heq.
  unfold interpolate. apply Qeq_bool_iff in Heq. now rewrite Heq.
Qed.

(** The guard makes the scan body total: no pair lets the division
    raise. *)
Lemma interpolate_total (lo hi : PercentilePoint) (T : Q) :
  exists v, interpolate lo hi T = Ok v.
Proof.
  destruct lo as [p_lo rt_lo], hi as [p_hi rt_hi].
  unfold interpolate, py_div.
  destruct (Qeq_bool rt_hi rt_lo) eqn:E; simpl; [eauto|].
  destruct (Qeq_bool (rt_hi - rt_lo) 0) eqn:E0; simpl; [|eauto].
  apply Qeq_bool_iff in E0. apply Qeq_bool_neq in E.
  exfalso. apply E. lra.
Qed.

Lemma first_bracket_sound (pts : list PercentilePoint) (T : Q) lo hi :
  first_bracket pts T = Some (lo, hi) ->
  exists i, is_first_bracket pts T i lo hi.
Proof.
  revert lo hi. induction pts as [|a pts IH]; intros lo hi; [discriminate|].
  destruct pts as [|b pts]; [discriminate|].
  cbn [first_bracket]. destruct (brackets a b T) eqn:E.
  - intros [= <- <-]. exists 0%nat. repeat split; try reflexivity.
    + now apply brackets_spec in E.
    + now apply brackets_spec in E.
    + intros j ? ? Hj. lia.
  - intros H. destruct (IH _ _ H) as (i & Hlo & Hhi & Hbr & Hfirst).
    exists (S i). repeat split; try assumption; try tauto.
    intros [|j] x y Hj Hx Hy.
    + simpl in Hx, Hy. injection Hx as <-. injection Hy as <-.
      rewrite <- brackets_spec. congruence.
    + simpl in Hx, Hy. eapply Hfirst; eauto. lia.
Qed.

Lemma scan_first_bracket (pts : list PercentilePoint) (T : Q) :
  scan pts T =
  match first_bracket pts T with
  | Some (lo, hi) => Some (interpolate lo hi T)
  | None => None
  end.
Proof.
  induction pts as [|a pts IH]; [reflexivity|].
  destruct pts as [|b pts]; [reflexivity|].
  cbn [scan first_bracket]. destruct (brackets a b T); [reflexivity|].
  exact IH.
Qed.

(** Once the first latency is below the threshold and some latency is
    not, a bracketing pair exists. *)
Lemma first_bracket_exists (pts : list PercentilePoint) (T : Q) p0 rest :
  pts = p0 :: rest ->
  snd p0 < T ->
  (exists p, In p pts /\ T <= snd p) ->
  exists lo hi, first_bracket pts T = Some (lo, hi).
Proof.
  revert p0 rest. induction pts as [|a pts IH]; intros p0 rest; [discriminate|].
  intros [= <- <-] Hlt (p & Hin & Hge).
  destruct pts as [|b pts].
  - destruct Hin as [<-|[]]. lra.
  - cbn [first_bracket]. destruct (brackets a b T) eqn:E; [eauto|].
    apply (IH b pts eq_refl).
    + now apply (brackets_false_below a b T).
    + exists p. split; [|assumption].
      destruct Hin as [<-|Hin]; [lra|assumption].
Qed.

(** ** The estimator on a list of points *)

Lemma forallb_below (pts : list PercentilePoint) (T : Q) :
  forallb (fun p => Qltb (snd p) T) pts = true <->
  forall p, In p pts -> snd p < T.
Proof.
  rewrite forallb_forall. split; intros H p Hp.
  - apply Qltb_lt. now apply H.
  - apply Qltb_lt. now apply H.
Qed.

Lemma forallb_not_below (pts : list PercentilePoint) (T : Q) :
  forallb (fun p => Qltb (snd p) T) pts = false <->
  exists p, In p pts /\ T <= snd p.
Proof.
  induction pts as [|a pts IH]; simpl.
  - split; [discriminate|]. intros (p & [] & _).
  - rewrite andb_false_iff, IH, Qltb_ge. split.
    + intros [H|(p & Hin & Hp)]; [exists a|exists p]; tauto.
    + intros (p & [<-|Hin] & Hp); [left|right; exists p]; tauto.
Qed.

Lemma estimate_points_empty (T : Q) : estimate_points [] T = Ok 0.
Proof. reflexivity. Qed.

Lemma estimate_points_all_below (pts : list PercentilePoint) (T : Q) :
  (forall p, In p pts -> snd p < T) ->
  estimate_points pts T = Ok 0.
Proof.
  intros H. destruct pts as [|p0 rest]; [reflexivity|].
  unfold estimate_points.
  now rewrite (proj2 (forallb_below (p0 :: rest) T) H).
Qed.

Lemma estimate_points_lowest (p0 : PercentilePoint) rest (T : Q) :
  T <= snd p0 ->
  estimate_points (p0 :: rest) T = Ok 100.
Proof.
  intros H. unfold estimate_points.
  assert (Hnb : forallb (fun p => Qltb (snd p) T) (p0 :: rest) = false).
  { apply forallb_not_below. exists p0. split; [now left|assumption]. }
  rewrite Hnb. now rewrite (proj2 (Qle_bool_iff _ _) H).
Qed.

Lemma estimate_points_scan (p0 : PercentilePoint) rest (T : Q) :
  snd p0 < T ->
  (exists p, In p (p0 :: rest) /\ T <= snd p) ->
  exists lo hi,
    first_bracket (p0 :: rest) T = Some (lo, hi) /\
    scan (p0 :: rest) T = Some (Ok (crossing lo hi T)) /\
    estimate_points (p0 :: rest) T = Ok (crossing lo hi T).
Proof.
  intros Hlt Hex.
  destruct (first_bracket_exists (p0 :: rest) T p0 rest eq_refl Hlt Hex)
    as (lo & hi & Hfb).
  exists lo, hi. split; [assumption|].
  destruct (first_bracket_sound _ _ _ _ Hfb) as (i & _ & _ & [Hlo Hhi] & _).
  assert (Hscan : scan (p0 :: rest) T = Some (Ok (crossing lo hi T))).
  { rewrite scan_first_bracket, Hfb.
    rewrite interpolate_bracket by lra. reflexivity. }
  split; [assumption|].
  unfold estimate_points.
  rewrite (proj2 (forallb_not_below (p0 :: rest) T) Hex).
  rewrite (proj2 (Qle_bool_gt _ _) Hlt).
  now rewrite Hscan.
Qed.

(** Every call on a non-empty list leaves through one of three exits. *)
Lemma estimate_points_cases (p0 : PercentilePoint) rest (T : Q) :
  ((forall p, In p (p0 :: rest) -> snd p < T) /\
   estimate_points (p0 :: rest) T = Ok 0)
  \/ (T <= snd p0 /\ estimate_points (p0 :: rest) T = Ok 100)
  \/ (snd p0 < T /\
      exists lo hi,
        first_bracket (p0 :: rest) T = Some (lo, hi) /\
        estimate_points (p0 :: rest) T = Ok (crossing lo hi T)).
Proof.
  destruct (forallb (fun p => Qltb (snd p) T) (p0 :: rest)) eqn:Hall.
  - left. pose proof (proj1 (forallb_below _ _) Hall) as Hb.
    split; [assumption|]. now apply estimate_points_all_below.
  - apply (proj1 (forallb_not_below _ _)) in Hall.
    destruct (Qlt_le_dec (snd p0) T) as [Hlt|Hge].
    + right. right. split; [assumption|].
      destruct (estimate_points_scan p0 rest T Hlt Hall)
        as (lo & hi & Hfb & _ & Hest).
      eauto.
    + right. left. split; [assumption|].
      now apply estimate_points_lowest.
Qed.

Lemma estimate_points_total (pts : list PercentilePoint) (T : Q) :
  exists v, estimate_points pts T = Ok v.
Proof.
  destruct pts as [|p0 rest]; [exists 0; reflexivity|].
  destruct (estimate_points_cases p0 rest T)
    as [[_ H]|[[_ H]|[_ (lo & hi & _ & H)]]]; eauto.
Qed.

(** The estimator on the sample inputs: lowest point over the
    threshold, every point under it, no point at all. *)
Example estimate_lowest_over :
  estimate_points [(50%Z, 3500); (99%Z, 9000)] 3000 = Ok 100.
Proof. reflexivity. Qed.

Example estimate_all_under :
  estimate_points [(50%Z, 100); (99%Z, 500)] 3000 = Ok 0.
Proof. reflexivity. Qed.

Example estimate_no_points : estimate_points [] 3000 = Ok 0.
Proof. reflexivity. Qed.

(** A row without percentile columns, or with missing values only, has
    no points. *)
Example points_of_counts_only : points (endpoint_row "Aggregated" 9 1) = [].
Proof. reflexivity. Qed.

Example points_skip_missing :
  points {| Name := "Aggregated";
            cells := {[ "50%"%string := NaN; "99%"%string := Num 120 ]} |}
  = [(99%Z, 120)].
Proof. reflexivity. Qed.

(** ** Interpolation bounds *)

Lemma inject_Z_gap (a b : Z) :
  (a <= b)%Z -> 0 <= inject_Z (b - a) /\ inject_Z (b - a) == inject_Z b - inject_Z a.
Proof.
  intros H. split.
  - change 0 with (inject_Z 0). rewrite <- Zle_Qle. lia.
  - unfold Z.sub. rewrite inject_Z_plus, inject_Z_opp. ring.
Qed.

Lemma frac_bounds (rt_lo rt_hi T : Q) :
  rt_lo < T -> T <= rt_hi ->
  0 <= (T - rt_lo) / (rt_hi - rt_lo) <= 1.
Proof.
  intros Hlo Hhi. split.
  - apply Qle_shift_div_l; lra.
  - apply Qle_shift_div_r; lra.
Qed.

Lemma frac_monotone (rt_lo rt_hi T1 T2 : Q) :
  rt_lo < rt_hi -> T1 <= T2 ->
  (T1 - rt_lo) / (rt_hi - rt_lo) <= (T2 - rt_lo) / (rt_hi - rt_lo).
Proof.
  intros Hlt HT. unfold Qdiv. apply Qmult_le_compat_r; [lra|].
  apply Qlt_le_weak, Qinv_lt_0_compat. lra.
Qed.

Lemma crossing_bounds (lo hi : PercentilePoint) (T : Q) :
  (fst lo <= fst hi)%Z -> snd lo < T -> T <= snd hi ->
  100 - inject_Z (fst hi) <= crossing lo hi T <= 100 - inject_Z (fst lo).
Proof.
  intros Hp Hlo Hhi. unfold crossing.
  destruct (inject_Z_gap _ _ Hp) as [Hd0 Hd].
  destruct (frac_bounds _ _ _ Hlo Hhi) as [Hf0 Hf1].
  set (f := (T - snd lo) / (snd hi - snd lo)) in *.
  set (d := inject_Z (fst hi - fst lo)) in *.
  assert (0 <= f * d) by (apply Qmult_le_0_compat; assumption).
  assert (f * d <= 1 * d) by (apply Qmult_le_compat_r; assumption).
  lra.
Qed.

Lemma crossing_antitone (lo hi : PercentilePoint) (T1 T2 : Q) :
  (fst lo <= fst hi)%Z -> snd lo < snd hi -> T1 <= T2 ->
  crossing lo hi T2 <= crossing lo hi T1.
Proof.
  intros Hp Hlt HT. unfold crossing.
  destruct (inject_Z_gap _ _ Hp) as [Hd0 _].
  pose proof (frac_monotone _ _ _ _ Hlt HT) as Hf.
  set (f1 := (T1 - snd lo) / (snd hi - snd lo)) in *.
  set (f2 := (T2 - snd lo) / (snd hi - snd lo)) in *.
  set (d := inject_Z (fst hi - fst lo)) in *.
  assert (f1 * d <= f2 * d) by (apply Qmult_le_compat_r; assumption).
  lra.
Qed.

(** ** Well-formed point lists *)

Lemma ascending_inv (a b : PercentilePoint) pts :
  ascending (a :: b :: pts) -> (fst a <= fst b)%Z /\ ascending (b :: pts).
Proof.
  intros H. apply Sorted_inv in H. destruct H as [Hs Hh].
  apply HdRel_inv in Hh. split; assumption.
Qed.

(** In an ascending list the first bracket lies at or after the head,
    and its two percentiles are in order. *)
Lemma first_bracket_ascending (pts : list PercentilePoint) (T : Q) p0 rest lo hi :
  pts = p0 :: rest ->
  ascending pts ->
  first_bracket pts T = Some (lo, hi) ->
  (fst p0 <= fst lo)%Z /\ (fst lo <= fst hi)%Z.
Proof.
  revert p0 rest. induction pts as [|a pts IH]; intros p0 rest; [discriminate|].
  intros [= <- <-] Hasc. destruct pts as [|b pts]; [discriminate|].
  destruct (ascending_inv _ _ _ Hasc) as [Hab Hasc'].
  cbn [first_bracket]. destruct (brackets a b T).
  - intros [= <- <-]. lia.
  - intros H. destruct (IH b pts eq_refl Hasc' H). lia.
Qed.

Lemma first_bracket_In (pts : list PercentilePoint) (T : Q) lo hi :
  first_bracket pts T = Some (lo, hi) ->
  In lo pts /\ In hi pts /\ snd lo < T /\ T <= snd hi.
Proof.
  intros H. destruct (first_bracket_sound _ _ _ _ H) as (i & Hlo & Hhi & Hbr & _).
  apply list_elem_of_lookup_2, list_elem_of_In in Hlo.
  apply list_elem_of_lookup_2, list_elem_of_In in Hhi.
  tauto.
Qed.

(** Raising the threshold moves the first bracket to the right, and the
    crossing percentile with it. *)
Lemma first_bracket_antitone (pts : list PercentilePoint) (T1 T2 : Q)
    p0 rest lo1 hi1 lo2 hi2 :
  pts = p0 :: rest ->
  ascending pts ->
  snd p0 < T1 -> T1 <= T2 ->
  first_bracket pts T1 = Some (lo1, hi1) ->
  first_bracket pts T2 = Some (lo2, hi2) ->
  crossing lo2 hi2 T2 <= crossing lo1 hi1 T1.
Proof.
  revert p0 rest lo1 hi1 lo2 hi2.
  induction pts as [|a pts IH]; intros p0 rest lo1 hi1 lo2 hi2; [discriminate|].
  intros [= <- <-] Hasc Hlt HT. destruct pts as [|b pts]; [discriminate|].
  destruct (ascending_inv _ _ _ Hasc) as [Hab Hasc'].
  cbn [first_bracket].
  destruct (brackets a b T1) eqn:E1; destruct (brackets a b T2) eqn:E2.
  - intros [= <- <-] [= <- <-]. apply brackets_spec in E1.
    apply crossing_antitone; [assumption|lra|assumption].
  - intros [= <- <-] H2. apply brackets_spec in E1.
    destruct (first_bracket_ascending (b :: pts) T2 b pts lo2 hi2
                eq_refl Hasc' H2) as [Hb Hlh].
    destruct (first_bracket_In (b :: pts) T2 lo2 hi2 H2)
      as (_ & _ & Hlo2 & Hhi2).
    pose proof (crossing_bounds lo2 hi2 T2 Hlh Hlo2 Hhi2) as [_ Hup].
    pose proof (crossing_bounds a b T1 Hab (proj1 E1) (proj2 E1)) as [Hdown _].
    assert (inject_Z (fst b) <= inject_Z (fst lo2)) by (rewrite <- Zle_Qle; lia).
    lra.
  - intros _ _. exfalso. apply brackets_spec in E2.
    pose proof (brackets_false_below a b T1 Hlt E1). lra.
  - intros H1 H2. apply (IH b pts lo1 hi1 lo2 hi2 eq_refl Hasc'); try assumption.
    now apply (brackets_false_below a b T1).
Qed.

(** ** The points of a row *)

Lemma point_of_Some (row : Series) (pc : Z * string) (p : PercentilePoint) :
  point_of row pc = Some p ->
  fst p = fst pc /\ cells row !! snd pc = Some (Num (snd p)).
Proof.
  unfold point_of. destruct (cells row !! snd pc) as [[x|]|]; try discriminate.
  intros [= <-]. split; reflexivity.
Qed.

Lemma omap_point_of_fst (row : Series) (cols : list (Z * string)) (P : Z -> Prop) :
  Forall (fun pc => P (fst pc)) cols ->
  Forall (fun p : PercentilePoint => P (fst p)) (omap (point_of row) cols).
Proof.
  induction 1 as [|pc cols Hpc _ IH]; simpl; [constructor|].
  destruct (point_of row pc) as [p|] eqn:E; [|assumption].
  constructor; [|assumption].
  apply point_of_Some in E. destruct E as [-> _]. assumption.
Qed.

Lemma omap_point_of_sorted (row : Series) (cols : list (Z * string)) :
  StronglySorted (fun a b => (fst a <= fst b)%Z) cols ->
  StronglySorted (fun a b : PercentilePoint => (fst a <= fst b)%Z)
    (omap (point_of row) cols).
Proof.
  induction 1 as [|pc cols _ IH Hall]; simpl; [constructor|].
  destruct (point_of row pc) as [p|] eqn:E; [|assumption].
  constructor; [assumption|].
  apply point_of_Some in E. destruct E as [-> _].
  apply (omap_point_of_fst row cols (fun z => (fst pc <= z)%Z)). assumption.
Qed.

Lemma pct_cols_sorted :
  StronglySorted (fun a b : Z * string => (fst a <= fst b)%Z) pct_cols.
Proof.
  unfold pct_cols.
  repeat (constructor; [|repeat (constructor; [simpl; lia|])]); constructor.
Qed.

Lemma pct_cols_in_range :
  Forall (fun pc : Z * string => (0 <= fst pc <= 100)%Z) pct_cols.
Proof. unfold pct_cols. repeat (constructor; [simpl; lia|]). constructor. Qed.

Lemma points_ascending (row : Series) : ascending (points row).
Proof.
  apply StronglySorted_Sorted, omap_point_of_sorted, pct_cols_sorted.
Qed.

Lemma points_in_range (row : Series) : percentiles_in_range (points row).
Proof.
  apply (omap_point_of_fst row pct_cols (fun z => (0 <= z <= 100)%Z)).
  exact pct_cols_in_range.
Qed.

(** ** Claims about the estimator *)

(** C5.  On a non-empty list of points whose lowest-percentile point
    has a latency at or above the threshold, the estimator returns
    exactly [100.0]. *)
Theorem lowest_point_over_threshold
    (p0 : PercentilePoint) (rest : list PercentilePoint) (T : Q) :
  T <= snd p0 ->
  estimate_points (p0 :: rest) T = Ok 100.
Proof. apply estimate_points_lowest. Qed.

Lemma lowest_point_over_threshold_witness :
  3000 <= snd (50%Z, 3500) /\
  estimate_points [(50%Z, 3500); (99%Z, 9000)] 3000 = Ok 100.
Proof.
  split.
  - simpl. lra.
  - apply (lowest_point_over_threshold (50%Z, 3500) [(99%Z, 9000)] 3000).
    simpl. lra.
Defined.

(** The same on a row: the first column that holds a number decides. *)
Lemma estimate_row_lowest (row : Series) (T : Q) p0 rest :
  points row = p0 :: rest ->
  T <= snd p0 ->
  estimate_sla_violation_pct row T = Ok 100.
Proof.
  intros Hpts H. unfold estimate_sla_violation_pct. rewrite Hpts.
  now apply estimate_points_lowest.
Qed.

Lemma estimate_points_antitone
    (pts : list PercentilePoint) (T1 T2 : Q) :
  ascending pts ->
  percentiles_in_range pts ->
  T1 <= T2 ->
  exists v1 v2,
    estimate_points pts T1 = Ok v1 /\
    estimate_points pts T2 = Ok v2 /\
    v2 <= v1.
Proof.
  intros Hasc Hrange HT.
  destruct pts as [|p0 rest].
  { exists 0, 0. repeat split; lra. }
  assert (Hin : forall p, In p (p0 :: rest) -> (0 <= fst p <= 100)%Z).
  { intros p Hp. unfold percentiles_in_range in Hrange.
    rewrite List.Forall_forall in Hrange. now apply Hrange. }
  assert (Hbr : forall T lo hi,
             first_bracket (p0 :: rest) T = Some (lo, hi) ->
             0 <= crossing lo hi T <= 100).
  { intros T lo hi Hfb.
    destruct (first_bracket_ascending _ T p0 rest lo hi eq_refl Hasc Hfb)
      as [_ Hlh].
    destruct (first_bracket_In _ _ _ _ Hfb) as (Hlo & Hhi & Hlt & Hge).
    pose proof (crossing_bounds lo hi T Hlh Hlt Hge) as [Hd Hu].
    pose proof (Hin _ Hlo) as [Hlo0 _]. pose proof (Hin _ Hhi) as [_ Hhi100].
    rewrite Zle_Qle in Hlo0, Hhi100. simpl in Hlo0, Hhi100.
    change (inject_Z 100) with 100 in Hhi100.
    change (inject_Z 0) with 0 in Hlo0.
    split; lra. }
  destruct (estimate_points_cases p0 rest T1)
    as [[Hall1 E1]|[[Hge1 E1]|[Hlt1 (lo1 & hi1 & Hfb1 & E1)]]].
  - exists 0, 0. split; [assumption|]. split; [|lra].
    apply estimate_points_all_below. intros p Hp.
    specialize (Hall1 p Hp). lra.
  - destruct (estimate_points_cases p0 rest T2)
      as [[_ E2]|[[_ E2]|[_ (lo2 & hi2 & Hfb2 & E2)]]].
    + exists 100, 0. repeat split; try assumption. lra.
    + exists 100, 100. repeat split; try assumption. lra.
    + exists 100, (crossing lo2 hi2 T2). repeat split; try assumption.
      apply (Hbr _ _ _ Hfb2).
  - destruct (estimate_points_cases p0 rest T2)
      as [[_ E2]|[[Hge2 E2]|[_ (lo2 & hi2 & Hfb2 & E2)]]].
    + exists (crossing lo1 hi1 T1), 0. repeat split; try assumption.
      apply (Hbr _ _ _ Hfb1).
    + lra.
    + exists (crossing lo1 hi1 T1), (crossing lo2 hi2 T2).
      repeat split; try assumption.
      apply (first_bracket_antitone (p0 :: rest) T1 T2 p0 rest
               lo1 hi1 lo2 hi2 eq_refl Hasc Hlt1 HT Hfb1 Hfb2).
Qed.


(** C3.  For a fixed list of points with percentiles in ascending order
    (percentiles being percentages, between 0 and 100), the estimate
    does not increase when the threshold increases. *)
Theorem estimate_antitone_in_threshold
    (pts : list PercentilePoint) (T1 T2 : Q) :
  ascending pts ->
  percentiles_in_range pts ->
  T1 <= T2 ->
  exists v1 v2,
    estimate_points pts T1 = Ok v1 /\
    estimate_points pts T2 = Ok v2 /\
    v2 <= v1.
Proof. apply estimate_points_antitone. Qed.

(** Whatever a row holds, its points are ascending percentages, so the
    estimate of a row is antitone in the threshold. *)
Lemma estimate_row_antitone (row : Series) (T1 T2 : Q) :
  T1 <= T2 ->
  exists v1 v2,
    estimate_sla_violation_pct row T1 = Ok v1 /\
    estimate_sla_violation_pct row T2 = Ok v2 /\
    v2 <= v1.
Proof.
  intros HT. unfold estimate_sla_violation_pct.
  apply estimate_points_antitone;
    [apply points_ascending | apply points_in_range | assumption].
Qed.

Lemma estimate_antitone_in_threshold_witness :
  exists v1 v2,
    estimate_points example_points 3000 = Ok v1 /\
    estimate_points example_points 4500 = Ok v2 /\
    v2 <= v1.
Proof.
  apply (estimate_antitone_in_threshold example_points 3000 4500).
  - unfold ascending, example_points.
    repeat (constructor; simpl; try lia).
  - unfold percentiles_in_range, example_points.
    repeat (constructor; simpl; try lia).
  - lra.
Defined.

(** C4.  When the first latency is strictly below the threshold and
    some latency is at or above it, the estimator returns the linear
    interpolation at the first consecutive pair [(p_lo, rt_lo)],
    [(p_hi, rt_hi)] with [rt_lo < threshold <= rt_hi]:
    [100 - (p_lo + (threshold - rt_lo) / (rt_hi - rt_lo) * (p_hi - p_lo))].
    The scan body returns [100 - p_lo], without dividing, on any pair
    with [rt_hi == rt_lo]. *)
Theorem scan_interpolates_first_bracket
    (p0 : PercentilePoint) (rest : list PercentilePoint) (T : Q) :
  snd p0 < T ->
  (exists p, In p (p0 :: rest) /\ T <= snd p) ->
  (exists i lo hi,
      is_first_bracket (p0 :: rest) T i lo hi /\
      estimate_points (p0 :: rest) T =
        Ok (100 - (inject_Z (fst lo)
                   + (T - snd lo) / (snd hi - snd lo)
                     * inject_Z (fst hi - fst lo))))
  /\ (forall lo hi : PercentilePoint,
        snd hi == snd lo ->
        interpolate lo hi T = Ok (100 - inject_Z (fst lo))).
Proof.
  intros Hlt Hex. split.
  - destruct (estimate_points_scan p0 rest T Hlt Hex)
      as (lo & hi & Hfb & _ & Hest).
    destruct (first_bracket_sound _ _ _ _ Hfb) as (i & Hi).
    exists i, lo, hi. split; assumption.
  - intros lo hi. apply interpolate_degenerate.
Qed.

Lemma scan_interpolates_first_bracket_witness :
  exists i lo hi,
    is_first_bracket example_points 3000 i lo hi /\
    estimate_points example_points 3000 =
      Ok (100 - (inject_Z (fst lo)
                 + (3000 - snd lo) / (snd hi - snd lo)
                   * inject_Z (fst hi - fst lo))).
Proof.
  apply (scan_interpolates_first_bracket (50%Z, 800)
           [(95%Z, 2500); (99%Z, 4200); (100%Z, 5000)] 3000).
  - simpl. lra.
  - exists (99%Z, 4200). split; [simpl; tauto | simpl; lra].
Defined.

(** C10.  On a non-empty list of points the estimator never raises and
    leaves through the all-below check, the lowest-point check or the
    scan.  Whenever the scan is entered (first latency strictly below
    the threshold, some latency at or above it) a first bracketing pair
    exists, its latencies satisfy [rt_lo < rt_hi], the divisor
    [rt_hi - rt_lo] is not zero, and the scan returns at that pair, so
    the code after the loop is not reached. *)
Theorem scan_always_finds_bracket
    (p0 : PercentilePoint) (rest : list PercentilePoint) (T : Q) :
  (((forall p, In p (p0 :: rest) -> snd p < T) /\
    estimate_points (p0 :: rest) T = Ok 0)
   \/ (T <= snd p0 /\ estimate_points (p0 :: rest) T = Ok 100)
   \/ (exists v, scan (p0 :: rest) T = Some (Ok v) /\
                 estimate_points (p0 :: rest) T = Ok v))
  /\ (snd p0 < T ->
      (exists p, In p (p0 :: rest) /\ T <= snd p) ->
      exists i lo hi v,
        is_first_bracket (p0 :: rest) T i lo hi /\
        snd lo < snd hi /\
        ~ snd hi - snd lo == 0 /\
        py_div (T - snd lo) (snd hi - snd lo)
          = Ok ((T - snd lo) / (snd hi - snd lo)) /\
        scan (p0 :: rest) T = Some (Ok v) /\
        estimate_points (p0 :: rest) T = Ok v).
Proof.
  assert (Hscan : snd p0 < T ->
      (exists p, In p (p0 :: rest) /\ T <= snd p) ->
      exists i lo hi v,
        is_first_bracket (p0 :: rest) T i lo hi /\
        snd lo < snd hi /\
        ~ snd hi - snd lo == 0 /\
        py_div (T - snd lo) (snd hi - snd lo)
          = Ok ((T - snd lo) / (snd hi - snd lo)) /\
        scan (p0 :: rest) T = Some (Ok v) /\
        estimate_points (p0 :: rest) T = Ok v).
  { intros Hlt Hex.
    destruct (estimate_points_scan p0 rest T Hlt Hex)
      as (lo & hi & Hfb & Hsc & Hest).
    destruct (first_bracket_sound _ _ _ _ Hfb) as (i & Hi).
    pose proof Hi as (_ & _ & [Hlo Hhi] & _).
    exists i, lo, hi, (crossing lo hi T).
    split; [assumption|]. split; [lra|]. split; [lra|].
    split; [|split; assumption].
    unfold py_div. destruct (Qeq_bool (snd hi - snd lo) 0) eqn:E;
      [|reflexivity].
    apply Qeq_bool_iff in E. lra. }
  split; [|exact Hscan].
  destruct (forallb (fun p => Qltb (snd p) T) (p0 :: rest)) eqn:Hall.
  - left. pose proof (proj1 (forallb_below _ _) Hall) as Hb.
    split; [assumption|]. now apply estimate_points_all_below.
  - apply (proj1 (forallb_not_below _ _)) in Hall.
    destruct (Qlt_le_dec (snd p0) T) as [Hlt|Hge].
    + right. right.
      destruct (Hscan Hlt Hall) as (i & lo & hi & v & _ & _ & _ & _ & Hs & He).
      exists v. split; assumption.
    + right. left. split; [assumption|].
      now apply estimate_points_lowest.
Qed.

Lemma example_row_points : points example_row = example_points.
Proof. reflexivity. Qed.

(** C1, as amended.  For the points [(50,800), (95,2500), (99,4200),
    (100,5000)] and the threshold 3000 the estimator brackets the
    threshold between (95,2500) and (99,4200) and returns 65/17,
    approximately 3.82 (breach percentile approximately 96.18). *)
Theorem example_estimate :
  first_bracket example_points 3000 = Some ((95%Z, 2500), (99%Z, 4200)) /\
  is_first_bracket example_points 3000 1 (95%Z, 2500) (99%Z, 4200) /\
  exists v,
    estimate_points example_points 3000 = Ok v /\
    estimate_sla_violation_pct example_row SLA_THRESHOLD_MS = Ok v /\
    v == 65 # 17 /\
    within 0.005 v 3.82 /\
    within 0.005 (100 - v) 96.18.
Proof.
  split; [reflexivity|]. split.
  - repeat split; simpl; try lra.
    intros [|[|j]] a b Hj; try lia. simpl. intros [= <-] [= <-]. simpl. lra.
  - exists (6500 # 1700). split; [reflexivity|]. split; [reflexivity|].
    split; [reflexivity|]. unfold within.
    split; apply Qabs_Qle_condition; lra.
Qed.

(** C1, as stated: the returned value is not within one percentage
    point of 2.14, nor the breach percentile of 97.86. *)
Lemma example_estimate_is_not_2_14 :
  ~ (first_bracket example_points 3000 = Some ((95%Z, 2500), (99%Z, 4200)) /\
     exists v,
       estimate_points example_points 3000 = Ok v /\
       within 1 v 2.14 /\
       within 1 (100 - v) 97.86).
Proof.
  intros (_ & v & Hv & Hw & _).
  vm_compute in Hv. injection Hv as <-.
  unfold within in Hw. apply Qabs_Qle_condition in Hw. lra.
Qed.

(** ** Claims about the reducer *)

Lemma is_aggregated_spec (r : Series) :
  is_aggregated r = true <-> Name r = "Aggregated"%string.
Proof. unfold is_aggregated. apply String.eqb_eq. Qed.

Lemma filter_none {A} (f : A -> bool) (l : list A) :
  (forall x, In x l -> f x = false) -> List.filter f l = [].
Proof.
  induction l as [|a l IH]; intros H; [reflexivity|]. simpl.
  rewrite (H a) by now left. apply IH. intros x Hx. apply H. now right.
Qed.

Lemma not_aggregated (l : list Series) :
  (forall x, In x l -> Name x <> "Aggregated"%string) ->
  forall x, In x l -> is_aggregated x = false.
Proof.
  intros H x Hx. destruct (is_aggregated x) eqn:E; [|reflexivity].
  apply is_aggregated_spec in E. now apply H in Hx.
Qed.

Lemma get_aggregated_first (pre post : list Series) (r : Series) :
  Name r = "Aggregated"%string ->
  (forall x, In x pre -> Name x <> "Aggregated"%string) ->
  get_aggregated (pre ++ r :: post) = Ok r.
Proof.
  intros Hr Hpre. unfold get_aggregated.
  rewrite List.filter_app, (filter_none _ pre) by now apply not_aggregated.
  simpl. now rewrite (proj2 (is_aggregated_spec r) Hr).
Qed.

Lemma get_aggregated_fallback (df : DataFrame) :
  df <> [] ->
  (forall x, In x df -> Name x <> "Aggregated"%string) ->
  exists r, last df = Some r /\ get_aggregated df = Ok r.
Proof.
  intros Hne Hno. unfold get_aggregated, iloc_last.
  rewrite (filter_none _ df) by now apply not_aggregated.
  destruct (last df) as [r|] eqn:E; [eauto|].
  apply last_None in E. contradiction.
Qed.

(** C7.  On a non-empty frame the reducer returns the first row whose
    name is the sentinel ["Aggregated"]; when no row has that name it
    returns the last row. *)
Theorem get_aggregated_selection (df : DataFrame) :
  df <> [] ->
  (forall pre r post,
      df = pre ++ r :: post ->
      Name r = "Aggregated"%string ->
      (forall x, In x pre -> Name x <> "Aggregated"%string) ->
      get_aggregated df = Ok r)
  /\ ((forall x, In x df -> Name x <> "Aggregated"%string) ->
      exists r, last df = Some r /\ get_aggregated df = Ok r).
Proof.
  intros Hne. split.
  - intros pre r post -> Hr Hpre. now apply get_aggregated_first.
  - now apply get_aggregated_fallback.
Qed.

(** C8, as amended.  On a frame without rows the reducer fails with
    Python's [IndexError], raised by [df.iloc[-1]]; no row is
    returned. *)
Theorem get_aggregated_empty :
  get_aggregated [] = Raise IndexError /\
  forall r, get_aggregated [] <> Ok r.
Proof. split; [reflexivity|]. intros r. discriminate. Qed.

(** C8, as stated: the exception raised on a frame without rows is not
    an [EmptyInputError]; the code defines and raises no exception of
    that name. *)
Lemma get_aggregated_empty_is_not_EmptyInputError :
  ~ (exists e,
        get_aggregated [] = Raise e /\
        exn_name e = "EmptyInputError"%string).
Proof. intros (e & [= <-] & Hname). discriminate Hname. Qed.

Lemma get_aggregated_selection_witness :
  get_aggregated example_frame = Ok (endpoint_row "Aggregated" 9 1) /\
  exists r,
    last [endpoint_row "/upload" 5 0; endpoint_row "/resize" 4 1] = Some r /\
    get_aggregated [endpoint_row "/upload" 5 0; endpoint_row "/resize" 4 1]
      = Ok r.
Proof.
  split.
  - apply (proj1 (get_aggregated_selection example_frame ltac:(discriminate))
             [endpoint_row "/upload" 5 0]
             (endpoint_row "Aggregated" 9 1)
             [endpoint_row "/resize" 4 1]).
    + reflexivity.
    + reflexivity.
    + intros x [<-|[]]. discriminate.
  - apply (proj2 (get_aggregated_selection
                    [endpoint_row "/upload" 5 0; endpoint_row "/resize" 4 1]
                    ltac:(discriminate))).
    intros x [<-|[<-|[]]]; discriminate.
Defined.

(** ** Claims about the cross-run table *)

Lemma py_max_1_bounds (x : Q) : 1 <= py_max x 1 /\ x <= py_max x 1.
Proof.
  unfold py_max. destruct (Qltb x 1) eqn:E.
  - apply Qltb_lt in E. lra.
  - apply Qltb_ge in E. lra.
Qed.

Lemma py_max_inject_Z (c : Z) : py_max (inject_Z c) 1 = inject_Z (Z.max c 1).
Proof.
  unfold py_max. destruct (Qltb (inject_Z c) 1) eqn:E.
  - apply Qltb_lt in E. change 1 with (inject_Z 1) in E.
    rewrite <- Zlt_Qlt in E. rewrite Z.max_r by lia. reflexivity.
  - apply Qltb_ge in E. change 1 with (inject_Z 1) in E.
    rewrite <- Zle_Qle in E. rewrite Z.max_l by lia. reflexivity.
Qed.

(** What [run_metrics] returns for a frame whose aggregate row holds
    numbers in its two count columns. *)
Lemma run_metrics_numeric (n : Z) (df : DataFrame) (r : Series) (f t : Q) :
  get_aggregated df = Ok r ->
  get r "Failure Count" (Num 0) = Num f ->
  get r "Request Count" (Num 1) = Num t ->
  exists m,
    run_metrics n df = Ok m /\
    Users m = n /\
    Failures m = trunc f /\
    Total m = trunc (py_max t 1) /\
    Error_pct m = f / py_max t 1 * 100 /\
    estimate_sla_violation_pct r SLA_THRESHOLD_MS = Ok (SLA_Viol_pct m).
Proof.
  intros Hr Hf Ht. unfold run_metrics. rewrite Hr. simpl.
  destruct (estimate_points_total (points r) SLA_THRESHOLD_MS) as [v Hv].
  unfold estimate_sla_violation_pct. rewrite Hv. simpl.
  rewrite Hf, Ht. simpl.
  eexists. split; [reflexivity|]. simpl. repeat split; reflexivity.
Qed.

Lemma run_metrics_Users (n : Z) (df : DataFrame) (m : RunMetrics) :
  run_metrics n df = Ok m -> Users m = n.
Proof.
  unfold run_metrics. destruct (get_aggregated df) as [r|e]; [|discriminate].
  simpl. destruct (estimate_sla_violation_pct r SLA_THRESHOLD_MS) as [v|e];
    [|discriminate].
  simpl.
  destruct (get r "Failure Count" (Num 0)); [|discriminate].
  destruct (max_1 (get r "Request Count" (Num 1))); [|discriminate].
  intros [= <-]. reflexivity.
Qed.

(** A run without requests: no division by zero, error percentage 0. *)
Example run_metrics_no_requests :
  exists m,
    run_metrics 10 [endpoint_row "Aggregated" 0 0] = Ok m /\
    Failures m = 0%Z /\ Total m = 1%Z /\
    Error_pct m == 0 /\ SLA_Viol_pct m = 0.
Proof. eexists. split; [reflexivity|]. repeat split; reflexivity. Qed.

(** C9.  The row of a processed level stores [max(request count, 1)] as
    its total, and the error percentage divides by that same value; a
    run whose aggregate row reports zero requests is listed with total
    [1]. *)
Theorem total_is_clamped_request_count
    (n : Z) (df : DataFrame) (r : Series) (c : Z) (f : Q) :
  get_aggregated df = Ok r ->
  cells r !! "Request Count"%string = Some (Num (inject_Z c)) ->
  get r "Failure Count" (Num 0) = Num f ->
  exists m,
    run_metrics n df = Ok m /\
    Total m = Z.max c 1 /\
    Error_pct m = f / inject_Z (Total m) * 100 /\
    (c = 0%Z -> Total m = 1%Z).
Proof.
  intros Hr Hc Hf.
  assert (Ht : get r "Request Count" (Num 1) = Num (inject_Z c)).
  { unfold get. now rewrite Hc. }
  destruct (run_metrics_numeric n df r f _ Hr Hf Ht)
    as (m & Hm & _ & _ & Htot & Herr & _).
  rewrite py_max_inject_Z in Htot, Herr. rewrite trunc_inject_Z in Htot.
  exists m. split; [assumption|]. split; [assumption|].
  split; [now rewrite Htot|].
  intros ->. rewrite Htot. reflexivity.
Qed.

Lemma total_is_clamped_request_count_witness :
  exists m,
    run_metrics 10 [endpoint_row "Aggregated" 0 0] = Ok m /\
    Total m = 1%Z /\
    Error_pct m = 0 / inject_Z (Total m) * 100.
Proof.
  destruct (total_is_clamped_request_count 10
              [endpoint_row "Aggregated" 0 0]
              (endpoint_row "Aggregated" 0 0) 0 0
              eq_refl eq_refl eq_refl)
    as (m & Hm & Htot & Herr & _).
  exists m. split; [exact Hm|]. split; [exact Htot|exact Herr].
Defined.

(** C2, as amended.  For an aggregate row whose failure count is
    non-negative and not greater than its total request count, the error
    percentage [failures / max(total, 1) * 100] lies in [0, 100], and it
    is 0 when the total request count is 0. *)
Theorem error_pct_in_range
    (n : Z) (df : DataFrame) (r : Series) (f t : Q) :
  get_aggregated df = Ok r ->
  get r "Failure Count" (Num 0) = Num f ->
  get r "Request Count" (Num 1) = Num t ->
  0 <= f -> f <= t ->
  exists m,
    run_metrics n df = Ok m /\
    Error_pct m = f / py_max t 1 * 100 /\
    0 <= Error_pct m <= 100 /\
    (t == 0 -> Error_pct m == 0).
Proof.
  intros Hr Hf Ht Hf0 Hft.
  destruct (run_metrics_numeric n df r f t Hr Hf Ht)
    as (m & Hm & _ & _ & _ & Herr & _).
  exists m. split; [assumption|]. split; [assumption|].
  rewrite Herr. destruct (py_max_1_bounds t) as [Hd1 Hdt].
  set (d := py_max t 1) in *.
  assert (Hq0 : 0 <= f / d) by (apply Qle_shift_div_l; lra).
  assert (Hq1 : f / d <= 1) by (apply Qle_shift_div_r; lra).
  split; [lra|].
  intros Ht0. assert (Hfz : f == 0) by lra. rewrite Hfz.
  unfold Qdiv. ring.
Qed.

Lemma error_pct_in_range_witness :
  exists m,
    run_metrics 10 example_frame = Ok m /\
    Error_pct m = 1 / py_max 9 1 * 100 /\
    0 <= Error_pct m <= 100 /\
    (9 == 0 -> Error_pct m == 0).
Proof.
  apply (error_pct_in_range 10 example_frame
           (endpoint_row "Aggregated" 9 1) 1 9).
  - reflexivity.
  - reflexivity.
  - reflexivity.
  - lra.
  - lra.
Defined.

(** C2, as stated: with 2 failures over 0 requests, both counts
    non-negative, the error percentage is 200, above 100 and not 0. *)
Lemma error_pct_above_100 :
  exists r f t m,
    get_aggregated overcounted_frame = Ok r /\
    get r "Failure Count" (Num 0) = Num f /\
    get r "Request Count" (Num 1) = Num t /\
    0 <= f /\ 0 <= t /\ t == 0 /\
    run_metrics 10 overcounted_frame = Ok m /\
    Error_pct m == 200 /\
    ~ (0 <= Error_pct m <= 100) /\
    ~ Error_pct m == 0.
Proof.
  exists (endpoint_row "Aggregated" 0 2), 2, 0.
  eexists. split; [reflexivity|]. split; [reflexivity|].
  split; [reflexivity|]. split; [lra|]. split; [lra|].
  split; [reflexivity|]. split; [reflexivity|]. simpl.
  split; [reflexivity|]. split.
  - intros [_ H]. revert H. unfold Qle. simpl. lia.
  - intros H. revert H. unfold Qeq. simpl. lia.
Qed.

Lemma present_cons_Some (raw : gmap Z DataFrame) n ns df :
  raw !! n = Some df -> present raw (n :: ns) = n :: present raw ns.
Proof.
  intros H. unfold present. rewrite filter_cons_True; [reflexivity|].
  rewrite H. eauto.
Qed.

Lemma present_cons_None (raw : gmap Z DataFrame) n ns :
  raw !! n = None -> present raw (n :: ns) = present raw ns.
Proof.
  intros H. unfold present. rewrite filter_cons_False; [reflexivity|].
  rewrite H. intros [? ?]. discriminate.
Qed.

(** Whenever the table is built, it lists the levels with data in the
    order given, one row each. *)
Lemma collect_metrics_rows (levels : list Z) (raw : gmap Z DataFrame) rows :
  collect_metrics levels raw = Ok rows ->
  Forall2 (row_of_level raw) (present raw levels) rows.
Proof.
  revert rows. induction levels as [|n ns IH]; intros rows; simpl.
  - intros [= <-]. constructor.
  - unfold load_stats. destruct (raw !! n) as [df|] eqn:E.
    + rewrite (present_cons_Some raw n ns df E).
      destruct (run_metrics n df) as [m|e] eqn:Em; [|discriminate]. simpl.
      destruct (collect_metrics ns raw) as [rows'|e]; [|discriminate]. simpl.
      intros [= <-]. constructor; [|now apply IH].
      exists df. split; assumption.
    + rewrite (present_cons_None raw n ns E). apply IH.
Qed.

Lemma rows_Users (raw : gmap Z DataFrame) (ns : list Z) rows :
  Forall2 (row_of_level raw) ns rows -> map Users rows = ns.
Proof.
  induction 1 as [|n m ns rows (df & _ & Hm) _ IH]; [reflexivity|].
  simpl. rewrite IH. f_equal. now apply run_metrics_Users in Hm.
Qed.

Lemma collect_metrics_returns (levels : list Z) (raw : gmap Z DataFrame) :
  (forall n df, In n levels -> raw !! n = Some df -> processable df) ->
  exists rows, collect_metrics levels raw = Ok rows.
Proof.
  induction levels as [|n ns IH]; intros H; simpl; [eauto|].
  destruct IH as [rows Hrows].
  { intros k df Hk. apply H. now right. }
  unfold load_stats. destruct (raw !! n) as [df|] eqn:E; [|eauto].
  destruct (H n df (or_introl eq_refl) E) as (r & f & t & Hr & Hf & Ht).
  destruct (run_metrics_numeric n df r f t Hr Hf Ht) as (m & Hm & _).
  rewrite Hm, Hrows. simpl. eauto.
Qed.

(** C6.  For an ordered list of levels whose present summaries can be
    processed, the table has exactly one row per level with a summary,
    in the order of the list; levels without a summary give neither a
    row nor an error. *)
Theorem collect_metrics_table (levels : list Z) (raw : gmap Z DataFrame) :
  (forall n df, In n levels -> raw !! n = Some df -> processable df) ->
  exists rows,
    collect_metrics levels raw = Ok rows /\
    Forall2 (row_of_level raw) (present raw levels) rows /\
    map Users rows = present raw levels /\
    length rows = length (present raw levels).
Proof.
  intros H. destruct (collect_metrics_returns levels raw H) as [rows Hrows].
  exists rows. split; [assumption|].
  pose proof (collect_metrics_rows levels raw rows Hrows) as HF.
  split; [assumption|]. split.
  - now apply (rows_Users raw).
  - symmetry. eapply Forall2_length. eassumption.
Qed.

Lemma collect_metrics_table_witness :
  exists rows,
    collect_metrics [10; 50]%Z example_raw = Ok rows /\
    map Users rows = [10%Z] /\
    length rows = 1%nat.
Proof.
  destruct (collect_metrics_table [10; 50]%Z example_raw) as (rows & H & _ & HU & HL).
  - intros n df _ Hn. unfold example_raw in Hn.
    apply lookup_singleton_Some in Hn. destruct Hn as [_ <-].
    exists (endpoint_row "Aggregated" 9 1), 1, 9.
    repeat split; reflexivity.
  - exists rows. split; [exact H|]. split; [exact HU|exact HL].
Defined.

(** * Further properties of the estimator *)

Lemma pct_cols_upper_half :
  Forall (fun pc : Z * string => (50 <= fst pc <= 100)%Z) pct_cols.
Proof. unfold pct_cols. repeat (constructor; [simpl; lia|]). constructor. Qed.

Lemma points_upper_half (row : Series) (p : PercentilePoint) :
  In p (points row) -> (50 <= fst p <= 100)%Z.
Proof.
  pose proof (omap_point_of_fst row pct_cols
                (fun z => (50 <= z <= 100)%Z) pct_cols_upper_half) as H.
  rewrite List.Forall_forall in H. apply H.
Qed.

Lemma inject_Z_percent (z : Z) :
  (50 <= z <= 100)%Z -> 50 <= inject_Z z <= 100.
Proof.
  intros [H1 H2]. rewrite Zle_Qle in H1, H2.
  change (inject_Z 50) with 50 in H1. change (inject_Z 100) with 100 in H2.
  split; assumption.
Qed.

(** What the scan returns on the points of a row lies between 0 and 50. *)
Lemma crossing_of_row (row : Series) (T : Q) lo hi :
  first_bracket (points row) T = Some (lo, hi) ->
  0 <= crossing lo hi T <= 50.
Proof.
  intros Hfb.
  destruct (points row) as [|p0 rest] eqn:Hpts; [discriminate|].
  assert (Hasc : ascending (p0 :: rest)) by (rewrite <- Hpts; apply points_ascending).
  destruct (first_bracket_ascending _ T p0 rest lo hi eq_refl Hasc Hfb) as [_ Hlh].
  destruct (first_bracket_In _ _ _ _ Hfb) as (Hlo & Hhi & Hlt & Hge).
  rewrite <- Hpts in Hlo, Hhi.
  apply points_upper_half, inject_Z_percent in Hlo.
  apply points_upper_half, inject_Z_percent in Hhi.
  pose proof (crossing_bounds lo hi T Hlh Hlt Hge). lra.
Qed.

Lemma estimate_row_range (row : Series) (T : Q) :
  exists v,
    estimate_sla_violation_pct row T = Ok v /\
    (v = 100 \/ 0 <= v <= 50).
Proof.
  unfold estimate_sla_violation_pct.
  destruct (points row) as [|p0 rest] eqn:Hpts.
  { exists 0. split; [reflexivity|]. right. lra. }
  destruct (estimate_points_cases p0 rest T)
    as [[_ E]|[[_ E]|[_ (lo & hi & Hfb & E)]]].
  - exists 0. split; [assumption|]. right. lra.
  - exists 100. split; [assumption|]. now left.
  - exists (crossing lo hi T). split; [assumption|]. right.
    apply (crossing_of_row row T lo hi). now rewrite Hpts.
Qed.

(** X1.  Whenever the estimator returns a value, that value is exactly
    [100] or lies between 0 and 50: an interpolated estimate never
    exceeds 50, because no percentile below the 50th is read. *)
Theorem estimate_is_100_or_at_most_50 (row : Series) (T v : Q) :
  estimate_sla_violation_pct row T = Ok v ->
  v = 100 \/ 0 <= v <= 50.
Proof.
  intros Hv. destruct (estimate_row_range row T) as (v' & Hv' & Hrange).
  rewrite Hv in Hv'. injection Hv' as <-. exact Hrange.
Qed.

Lemma estimate_is_100_or_at_most_50_witness :
  (6500 # 1700) = 100 \/ 0 <= 6500 # 1700 <= 50.
Proof.
  apply (estimate_is_100_or_at_most_50 example_row 3000 (6500 # 1700)).
  reflexivity.
Defined.

(** X2.  The estimator returns 100 exactly when the row has a point and
    the latency of its lowest recorded percentile is at or above the
    threshold. *)
Theorem estimate_100_iff_lowest_over (row : Series) (T v : Q) :
  estimate_sla_violation_pct row T = Ok v ->
  (v == 100 <->
   exists p0 rest, points row = p0 :: rest /\ T <= snd p0).
Proof.
  unfold estimate_sla_violation_pct. intros Hv.
  destruct (points row) as [|p0 rest] eqn:Hpts.
  { injection Hv as <-. split.
    - intros H. exfalso. revert H. unfold Qeq. simpl. lia.
    - intros (? & ? & [=] & _). }
  destruct (estimate_points_cases p0 rest T)
    as [[Hall E]|[[Hge E]|[Hlt (lo & hi & Hfb & E)]]];
    rewrite E in Hv; injection Hv as <-.
  - split.
    + intros H. exfalso. revert H. unfold Qeq. simpl. lia.
    + intros (q & r & [= <- <-] & Hq).
      specialize (Hall p0 (or_introl eq_refl)). lra.
  - split; [|reflexivity]. intros _. eauto.
  - split.
    + intros H. exfalso.
      assert (Hc : 0 <= crossing lo hi T <= 50).
      { apply (crossing_of_row row T lo hi). now rewrite Hpts. }
      lra.
    + intros (q & r & [= <- <-] & Hq). lra.
Qed.

Lemma estimate_100_iff_lowest_over_witness :
  (6500 # 1700) == 100 <->
  exists p0 rest, points example_row = p0 :: rest /\ 3000 <= snd p0.
Proof.
  apply (estimate_100_iff_lowest_over example_row 3000 (6500 # 1700)).
  reflexivity.
Defined.

Lemma first_bracket_cons (a b : PercentilePoint) l (T : Q) :
  first_bracket (a :: b :: l) T =
  if brackets a b T then Some (a, b) else first_bracket (b :: l) T.
Proof. reflexivity. Qed.

Lemma first_bracket_after_prefix (pre : list PercentilePoint) lo hi post (T : Q) :
  (forall p, In p pre -> snd p < T) ->
  snd lo < T -> T <= snd hi ->
  first_bracket (pre ++ lo :: hi :: post) T = Some (lo, hi).
Proof.
  intros Hpre Hlo Hhi. induction pre as [|a pre IH].
  - simpl. now rewrite (proj2 (brackets_spec lo hi T) (conj Hlo Hhi)).
  - assert (Hnext : exists b l, pre ++ lo :: hi :: post = b :: l /\ snd b < T).
    { destruct pre as [|b pre']; simpl; [eauto|].
      exists b, (pre' ++ lo :: hi :: post). split; [reflexivity|].
      apply Hpre. right. now left. }
    destruct Hnext as (b & l & Heq & Hb).
    change ((a :: pre) ++ lo :: hi :: post) with (a :: (pre ++ lo :: hi :: post)).
    rewrite Heq, first_bracket_cons.
    destruct (brackets a b T) eqn:E.
    + apply brackets_spec in E. lra.
    + rewrite <- Heq. apply IH. intros p Hp. apply Hpre. now right.
Qed.

Lemma estimate_points_after_prefix (pre : list PercentilePoint) lo hi post (T : Q) :
  (forall p, In p pre -> snd p < T) ->
  snd lo < T -> T <= snd hi ->
  estimate_points (pre ++ lo :: hi :: post) T = Ok (crossing lo hi T).
Proof.
  intros Hpre Hlo Hhi.
  pose proof (first_bracket_after_prefix pre lo hi post T Hpre Hlo Hhi) as Hfb.
  assert (Hshape : exists p0 rest,
             pre ++ lo :: hi :: post = p0 :: rest /\ snd p0 < T).
  { destruct pre as [|a pre']; simpl; [eauto|].
    exists a, (pre' ++ lo :: hi :: post). split; [reflexivity|].
    apply Hpre. now left. }
  destruct Hshape as (p0 & rest & Heq & Hp0).
  rewrite Heq in Hfb |- *.
  destruct (estimate_points_scan p0 rest T Hp0) as (lo' & hi' & Hfb' & _ & E).
  { exists hi. split; [|assumption]. rewrite <- Heq.
    apply List.in_or_app. right. right. now left. }
  rewrite Hfb in Hfb'. injection Hfb' as <- <-. exact E.
Qed.

(** X3.  The estimate is decided by the first point whose latency
    reaches the threshold and the point before it: when every point up
    to [lo] is below the threshold and [hi] is not, the result is the
    interpolation between [lo] and [hi], whatever follows [hi]. *)
Theorem estimate_at_first_point_reaching_threshold
    (pre : list PercentilePoint) (lo hi : PercentilePoint)
    (post : list PercentilePoint) (T : Q) :
  (forall p, In p pre -> snd p < T) ->
  snd lo < T ->
  T <= snd hi ->
  estimate_points (pre ++ lo :: hi :: post) T =
    Ok (100 - (inject_Z (fst lo)
               + (T - snd lo) / (snd hi - snd lo)
                 * inject_Z (fst hi - fst lo))).
Proof. apply estimate_points_after_prefix. Qed.

Lemma estimate_at_first_point_reaching_threshold_witness :
  estimate_points ([(50%Z, 800)] ++ (95%Z, 2500) :: (99%Z, 4200) :: [(100%Z, 5000)]) 3000 =
    Ok (100 - (inject_Z 95 + (3000 - 2500) / (4200 - 2500) * inject_Z (99 - 95))).
Proof.
  apply (estimate_at_first_point_reaching_threshold
           [(50%Z, 800)] (95%Z, 2500) (99%Z, 4200) [(100%Z, 5000)] 3000).
  - intros p [<-|[]]. simpl. lra.
  - simpl. lra.
  - simpl. lra.
Defined.

(** X4.  The interpolated estimate stays inside its bracket: with
    [p_lo <= p_hi] it lies between [100 - p_hi] and [100 - p_lo], and it
    is exactly [100 - p_hi] when the threshold equals the latency of
    [hi]. *)
Theorem estimate_within_bracket
    (pre : list PercentilePoint) (lo hi : PercentilePoint)
    (post : list PercentilePoint) (T : Q) :
  (forall p, In p pre -> snd p < T) ->
  snd lo < T ->
  T <= snd hi ->
  (fst lo <= fst hi)%Z ->
  exists v,
    estimate_points (pre ++ lo :: hi :: post) T = Ok v /\
    100 - inject_Z (fst hi) <= v <= 100 - inject_Z (fst lo) /\
    (T == snd hi -> v == 100 - inject_Z (fst hi)).
Proof.
  intros Hpre Hlo Hhi Hp.
  exists (crossing lo hi T).
  split; [now apply estimate_points_after_prefix|].
  split; [now apply crossing_bounds|]. unfold crossing.
  destruct (inject_Z_gap _ _ Hp) as [Hd0 Hd].
  set (d := inject_Z (fst hi - fst lo)) in *.
  intros HT.
  assert (Hf1 : (T - snd lo) / (snd hi - snd lo) == 1).
  { rewrite HT. field. lra. }
  rewrite Hf1, Hd. ring.
Qed.

Lemma estimate_within_bracket_witness :
  exists v,
    estimate_points ([(50%Z, 800)] ++ (95%Z, 2500) :: (99%Z, 4200) :: [(100%Z, 5000)]) 4200 = Ok v /\
    100 - inject_Z 99 <= v <= 100 - inject_Z 95 /\
    (4200 == 4200 -> v == 100 - inject_Z 99).
Proof.
  apply (estimate_within_bracket
           [(50%Z, 800)] (95%Z, 2500) (99%Z, 4200) [(100%Z, 5000)] 4200).
  - intros p [<-|[]]. simpl. lra.
  - simpl. lra.
  - simpl. lra.
  - simpl. lia.
Defined.

Lemma omap_ext_in {A B} (f g : A -> option B) (l : list A) :
  (forall x, In x l -> f x = g x) -> omap f l = omap g l.
Proof.
  induction l as [|a l IH]; intros H; [reflexivity|].
  assert (Htl : omap f l = omap g l).
  { apply IH. intros x Hx. apply H. now right. }
  simpl. rewrite (H a) by now left.
  destruct (g a); [f_equal|]; exact Htl.
Qed.

Lemma point_of_cell_number (row : Series) (pc : Z * string) :
  point_of row pc =
  match cell_number (cells row !! snd pc) with
  | Some x => Some (fst pc, x)
  | None => None
  end.
Proof.
  unfold point_of, cell_number.
  destruct (cells row !! snd pc) as [[x|]|]; reflexivity.
Qed.

Lemma points_same_numbers (row1 row2 : Series) :
  (forall pc, In pc pct_cols ->
     cell_number (cells row1 !! snd pc) = cell_number (cells row2 !! snd pc)) ->
  points row1 = points row2.
Proof.
  intros H. unfold points. apply omap_ext_in. intros pc Hpc.
  rewrite !point_of_cell_number. now rewrite (H pc Hpc).
Qed.

(** X5.  The estimator reads nothing but the numbers under the nine
    percentile labels: two rows with the same numbers there get the same
    estimate, whatever their names and other cells.  In particular a
    missing value counts as an absent column, and a cell under any other
    label changes nothing. *)
Theorem estimate_reads_percentile_numbers_only :
  (forall (row1 row2 : Series) (T : Q),
      (forall pc, In pc pct_cols ->
         cell_number (cells row1 !! snd pc)
         = cell_number (cells row2 !! snd pc)) ->
      estimate_sla_violation_pct row1 T = estimate_sla_violation_pct row2 T)
  /\ (forall (row : Series) (col : string) (T : Q),
        estimate_sla_violation_pct (set_cell row col NaN) T
        = estimate_sla_violation_pct (drop_cell row col) T)
  /\ (forall (row : Series) (col : string) (c : cell) (T : Q),
        (forall pc, In pc pct_cols -> snd pc <> col) ->
        estimate_sla_violation_pct (set_cell row col c) T
        = estimate_sla_violation_pct row T).
Proof.
  assert (Hmain : forall (row1 row2 : Series) (T : Q),
      (forall pc, In pc pct_cols ->
         cell_number (cells row1 !! snd pc)
         = cell_number (cells row2 !! snd pc)) ->
      estimate_sla_violation_pct row1 T = estimate_sla_violation_pct row2 T).
  { intros row1 row2 T H. unfold estimate_sla_violation_pct.
    now rewrite (points_same_numbers row1 row2 H). }
  split; [exact Hmain|]. split.
  - intros row col T. apply Hmain. intros pc _. simpl.
    destruct (decide (col = snd pc)) as [->|Hne].
    + now rewrite lookup_insert_eq, lookup_delete_eq.
    + now rewrite lookup_insert_ne, lookup_delete_ne by assumption.
  - intros row col c T Hcol. apply Hmain. intros pc Hpc. simpl.
    rewrite lookup_insert_ne; [reflexivity|].
    intros Heq. apply (Hcol pc Hpc). now symmetry.
Qed.

Lemma points_In_cell (row : Series) (p : PercentilePoint) :
  In p (points row) ->
  exists pc, In pc pct_cols /\ fst p = fst pc /\
             cells row !! snd pc = Some (Num (snd p)).
Proof.
  unfold points. rewrite <- list_elem_of_In, list_elem_of_omap.
  intros (pc & Hpc & Hp). apply list_elem_of_In in Hpc.
  apply point_of_Some in Hp. exists pc. tauto.
Qed.

(** X23.  When every number recorded under a percentile label is
    strictly below the threshold, the estimate is 0; hence a positive
    estimate means that some recorded percentile latency reaches the
    threshold. *)
Theorem estimate_zero_when_all_below (row : Series) (T : Q) :
  ((forall pc x, In pc pct_cols ->
      cells row !! snd pc = Some (Num x) -> x < T) ->
   estimate_sla_violation_pct row T = Ok 0)
  /\ (forall v,
        estimate_sla_violation_pct row T = Ok v -> 0 < v ->
        exists pc x, In pc pct_cols /\
                     cells row !! snd pc = Some (Num x) /\ T <= x).
Proof.
  split.
  - intros Hall. unfold estimate_sla_violation_pct.
    apply estimate_points_all_below. intros p Hp.
    destruct (points_In_cell row p Hp) as (pc & Hpc & _ & Hcell).
    apply (Hall pc (snd p) Hpc Hcell).
  - unfold estimate_sla_violation_pct. intros v Hv Hpos.
    destruct (points row) as [|p0 rest] eqn:Hpts.
    { injection Hv as <-. lra. }
    assert (Hex : exists p, In p (p0 :: rest) /\ T <= snd p).
    { apply forallb_not_below.
      destruct (forallb (fun p => Qltb (snd p) T) (p0 :: rest)) eqn:E;
        [|reflexivity].
      pose proof (proj1 (forallb_below _ _) E) as Hb.
      rewrite (estimate_points_all_below _ _ Hb) in Hv.
      injection Hv as <-. lra. }
    destruct Hex as (p & Hp & Hge). rewrite <- Hpts in Hp.
    destruct (points_In_cell row p Hp) as (pc & Hpc & _ & Hcell).
    exists pc, (snd p). tauto.
Qed.

(** * Further properties of the reducer *)

Lemma filter_head_In {A} (f : A -> bool) (l : list A) (x : A) (xs : list A) :
  List.filter f l = x :: xs -> In x l /\ f x = true.
Proof.
  intros H. apply List.filter_In. rewrite H. now left.
Qed.

Lemma filter_nil_all {A} (f : A -> bool) (l : list A) :
  List.filter f l = [] -> forall x, In x l -> f x = false.
Proof.
  intros H x Hx. destruct (f x) eqn:E; [|reflexivity].
  assert (Hin : In x (List.filter f l)) by (apply List.filter_In; tauto).
  rewrite H in Hin. destruct Hin.
Qed.

Lemma get_aggregated_Raise (df : DataFrame) (e : exn) :
  get_aggregated df = Raise e <-> df = [] /\ e = IndexError.
Proof.
  split.
  - unfold get_aggregated, iloc_last.
    destruct (List.filter is_aggregated df) as [|r agg]; [|discriminate].
    destruct (last df) as [r|] eqn:E; [discriminate|].
    apply last_None in E. intros [= <-]. tauto.
  - intros [-> ->]. reflexivity.
Qed.

(** X6.  On a frame with a ["Name"] column the reducer raises
    [IndexError] exactly when the frame has no rows; a row it returns is
    a row of the frame, and it is named ["Aggregated"] whenever some row
    of the frame is. *)
Theorem get_aggregated_index_error_iff_no_rows (df : DataFrame) :
  (get_aggregated df = Raise IndexError <-> df = [])
  /\ (forall r, get_aggregated df = Ok r ->
        In r df /\
        ((exists x, In x df /\ Name x = "Aggregated"%string) ->
         Name r = "Aggregated"%string)).
Proof.
  split.
  - rewrite get_aggregated_Raise. tauto.
  - intros r. unfold get_aggregated, iloc_last.
    destruct (List.filter is_aggregated df) as [|a agg] eqn:Ef.
    + destruct (last df) as [r'|] eqn:E; [|discriminate].
      intros [= <-]. split.
      * apply list_elem_of_In, last_Some_elem_of. assumption.
      * intros (x & Hx & Hn). apply is_aggregated_spec in Hn.
        rewrite (filter_nil_all _ _ Ef x Hx) in Hn. discriminate.
    + intros [= <-]. destruct (filter_head_In _ _ _ _ Ef) as [Hin Hag].
      split; [assumption|]. intros _. now apply is_aggregated_spec.
Qed.

(** * Further properties of the cross-run table *)

Lemma trunc_ge_1 (x : Q) : 1 <= x -> (1 <= trunc x)%Z.
Proof.
  destruct x as [n d]. unfold Qle, trunc. simpl. intros H.
  assert (0 < n ÷ Z.pos d)%Z by (apply Z.quot_str_pos; lia). lia.
Qed.

(** What a row returned by [run_metrics] was computed from. *)
Lemma run_metrics_Ok_inv (n : Z) (df : DataFrame) (m : RunMetrics) :
  run_metrics n df = Ok m ->
  exists r f t,
    get_aggregated df = Ok r /\
    get r "Failure Count" (Num 0) = Num f /\
    get r "Request Count" (Num 1) = Num t /\
    Users m = n /\ Failures m = trunc f /\
    Total m = trunc (py_max t 1) /\
    Error_pct m = f / py_max t 1 * 100 /\
    estimate_sla_violation_pct r SLA_THRESHOLD_MS = Ok (SLA_Viol_pct m).
Proof.
  unfold run_metrics. destruct (get_aggregated df) as [r|e]; [|discriminate].
  simpl.
  destruct (estimate_sla_violation_pct r SLA_THRESHOLD_MS) as [v|e] eqn:Ev;
    [|discriminate].
  simpl.
  destruct (get r "Failure Count" (Num 0)) as [f|] eqn:Ef; [|discriminate].
  destruct (get r "Request Count" (Num 1)) as [t|] eqn:Et; [|discriminate].
  simpl. intros [= <-]. exists r, f, t. simpl.
  repeat split; first [reflexivity | assumption].
Qed.

Lemma run_metrics_Raise (n : Z) (df : DataFrame) (e : exn) :
  run_metrics n df = Raise e <->
  (df = [] /\ e = IndexError)
  \/ (exists r,
        get_aggregated df = Ok r /\
        (get r "Failure Count" (Num 0) = NaN \/
         get r "Request Count" (Num 1) = NaN) /\
        e = ValueError).
Proof.
  unfold run_metrics. destruct (get_aggregated df) as [r|e'] eqn:Er; simpl.
  - destruct (estimate_points_total (points r) SLA_THRESHOLD_MS) as [v Hv].
    unfold estimate_sla_violation_pct. rewrite Hv. simpl.
    destruct (get r "Failure Count" (Num 0)) as [f|] eqn:Ef;
      destruct (get r "Request Count" (Num 1)) as [t|] eqn:Et; simpl.
    + split; [discriminate|].
      intros [[-> _]|(r' & [= <-] & [H|H] & _)];
        [discriminate Er | congruence | congruence].
    + split.
      * intros [= <-]. right. exists r. tauto.
      * intros [[-> _]|(r' & _ & _ & ->)]; [discriminate Er|reflexivity].
    + split.
      * intros [= <-]. right. exists r. tauto.
      * intros [[-> _]|(r' & _ & _ & ->)]; [discriminate Er|reflexivity].
    + split.
      * intros [= <-]. right. exists r. tauto.
      * intros [[-> _]|(r' & _ & _ & ->)]; [discriminate Er|reflexivity].
  - apply get_aggregated_Raise in Er. destruct Er as [-> ->]. split.
    + intros [= <-]. left. tauto.
    + intros [[_ ->]|(r & Hr & _)]; [reflexivity|discriminate].
Qed.


Lemma Forall2_row_of_level_In (raw : gmap Z DataFrame) ns rows m :
  Forall2 (row_of_level raw) ns rows -> In m rows ->
  exists n df, In n ns /\ raw !! n = Some df /\ run_metrics n df = Ok m.
Proof.
  induction 1 as [|n m' ns rows (df & Hdf & Hm) _ IH]; intros Hin; [destruct Hin|].
  destruct Hin as [<-|Hin].
  - exists n, df. split; [now left|]. split; assumption.
  - destruct (IH Hin) as (k & df' & Hk & H1 & H2).
    exists k, df'. split; [now right|]. split; assumption.
Qed.

Lemma present_In (raw : gmap Z DataFrame) (levels : list Z) (n : Z) :
  In n (present raw levels) <-> In n levels /\ is_Some (raw !! n).
Proof.
  unfold present. rewrite <- !list_elem_of_In, list_elem_of_filter. tauto.
Qed.

(** X8.  Every row of a returned table belongs to a requested level
    that has a summary, stores a total of at least 1, and carries an SLA
    estimate that is 100 or between 0 and 50. *)
Theorem collect_metrics_row_invariants
    (levels : list Z) (raw : gmap Z DataFrame) (rows : list RunMetrics)
    (m : RunMetrics) :
  collect_metrics levels raw = Ok rows ->
  In m rows ->
  In (Users m) levels /\
  is_Some (raw !! Users m) /\
  (1 <= Total m)%Z /\
  (SLA_Viol_pct m = 100 \/ 0 <= SLA_Viol_pct m <= 50).
Proof.
  intros Hrows Hm.
  apply collect_metrics_rows in Hrows.
  destruct (Forall2_row_of_level_In raw _ rows m Hrows Hm)
    as (n & df & Hn & Hdf & Hrun).
  apply present_In in Hn. destruct Hn as [Hn Hsome].
  destruct (run_metrics_Ok_inv n df m Hrun)
    as (r & f & t & _ & _ & _ & HU & _ & HT & _ & Hest).
  rewrite HU. split; [assumption|]. split; [assumption|]. split.
  - rewrite HT. apply trunc_ge_1. apply py_max_1_bounds.
  - destruct (estimate_row_range r SLA_THRESHOLD_MS) as (v & Hv & Hrange).
    rewrite Hv in Hest. injection Hest as <-. exact Hrange.
Qed.

Lemma collect_metrics_row_invariants_witness :
  exists rows m,
    collect_metrics [10; 50]%Z example_raw = Ok rows /\
    In m rows /\
    In (Users m) [10; 50]%Z /\
    is_Some (example_raw !! Users m) /\
    (1 <= Total m)%Z /\
    (SLA_Viol_pct m = 100 \/ 0 <= SLA_Viol_pct m <= 50).
Proof.
  eexists. eexists.
  split; [reflexivity|]. split; [left; reflexivity|].
  eapply (collect_metrics_row_invariants [10; 50]%Z example_raw).
  - reflexivity.
  - left. reflexivity.
Defined.

Lemma collect_metrics_cons_absent (n : Z) ns (raw : gmap Z DataFrame) :
  raw !! n = None ->
  collect_metrics (n :: ns) raw = collect_metrics ns raw.
Proof. intros H. simpl. unfold load_stats. now rewrite H. Qed.

Lemma collect_metrics_cons_present (n : Z) ns (raw : gmap Z DataFrame) df :
  raw !! n = Some df ->
  collect_metrics (n :: ns) raw =
  (m <<- run_metrics n df ;;
   rows <<- collect_metrics ns raw ;;
   Ok (m :: rows)).
Proof. intros H. simpl. unfold load_stats. now rewrite H. Qed.

Lemma collect_metrics_app_eq (l1 l2 : list Z) (raw : gmap Z DataFrame) :
  collect_metrics (l1 ++ l2) raw =
  (rows1 <<- collect_metrics l1 raw ;;
   rows2 <<- collect_metrics l2 raw ;;
   Ok (rows1 ++ rows2)).
Proof.
  induction l1 as [|n l1 IH].
  - simpl. destruct (collect_metrics l2 raw); reflexivity.
  - change ((n :: l1) ++ l2) with (n :: (l1 ++ l2)).
    destruct (raw !! n) as [df|] eqn:E.
    + rewrite !(collect_metrics_cons_present n _ raw df E), IH.
      destruct (run_metrics n df) as [m|e]; [|reflexivity]. simpl.
      destruct (collect_metrics l1 raw) as [rows1|e]; [|reflexivity]. simpl.
      destruct (collect_metrics l2 raw) as [rows2|e]; reflexivity.
    + rewrite !(collect_metrics_cons_absent n _ raw E). exact IH.
Qed.

(** X9.  The table of a concatenation of level lists is the
    concatenation of the tables; the first list that fails decides the
    exception. *)
Theorem collect_metrics_app (l1 l2 : list Z) (raw : gmap Z DataFrame) :
  collect_metrics (l1 ++ l2) raw =
  (rows1 <<- collect_metrics l1 raw ;;
   rows2 <<- collect_metrics l2 raw ;;
   Ok (rows1 ++ rows2)).
Proof. apply collect_metrics_app_eq. Qed.

Lemma collect_metrics_level_fails
    (levels : list Z) (raw : gmap Z DataFrame) (n : Z) df e :
  In n levels -> raw !! n = Some df -> run_metrics n df = Raise e ->
  exists e', collect_metrics levels raw = Raise e'.
Proof.
  intros Hin Hdf Hrun. induction levels as [|k ks IH]; [destruct Hin|].
  destruct (raw !! k) as [dk|] eqn:Ek.
  - rewrite (collect_metrics_cons_present k ks raw dk Ek).
    destruct (run_metrics k dk) as [m|ek] eqn:Erun; [|simpl; eauto].
    destruct Hin as [->|Hin]; [congruence|].
    destruct (IH Hin) as [e' He']. rewrite He'. simpl. eauto.
  - rewrite (collect_metrics_cons_absent k ks raw Ek).
    destruct Hin as [->|Hin]; [congruence|]. now apply IH.
Qed.

(** X10.  No partial table: if the frame of any requested level cannot
    be processed, [collect_metrics] raises, wherever that level stands
    in the list; and the exception is that of the first such level when
    the levels before it went through. *)
Theorem collect_metrics_no_partial_table (raw : gmap Z DataFrame) :
  (forall levels n df e,
      In n levels -> raw !! n = Some df -> run_metrics n df = Raise e ->
      exists e', collect_metrics levels raw = Raise e')
  /\ (forall l1 n l2 rows1 df e,
        collect_metrics l1 raw = Ok rows1 ->
        raw !! n = Some df -> run_metrics n df = Raise e ->
        collect_metrics (l1 ++ n :: l2) raw = Raise e).
Proof.
  split.
  - intros levels n df e. apply collect_metrics_level_fails.
  - intros l1 n l2 rows1 df e H1 Hdf Hrun.
    rewrite collect_metrics_app_eq, H1.
    rewrite (collect_metrics_cons_present n l2 raw df Hdf), Hrun.
    reflexivity.
Qed.

Lemma collect_metrics_present (levels : list Z) (raw : gmap Z DataFrame) :
  collect_metrics (present raw levels) raw = collect_metrics levels raw.
Proof.
  induction levels as [|n ns IH]; [reflexivity|].
  destruct (raw !! n) as [df|] eqn:E.
  - rewrite (present_cons_Some raw n ns df E).
    rewrite !(collect_metrics_cons_present n _ raw df E). now rewrite IH.
  - rewrite (present_cons_None raw n ns E).
    now rewrite (collect_metrics_cons_absent n ns raw E).
Qed.

(** X11.  Levels without a summary play no part: dropping them from the
    list beforehand gives the same result, and a returned table is empty
    exactly when no requested level has a summary (the case in which
    [main] stops with exit status 1). *)
Theorem collect_metrics_ignores_absent_levels
    (levels : list Z) (raw : gmap Z DataFrame) :
  collect_metrics (present raw levels) raw = collect_metrics levels raw
  /\ (collect_metrics levels raw = Ok [] <->
      forall n, In n levels -> raw !! n = None).
Proof.
  split; [apply collect_metrics_present|]. split.
  - intros H n Hn. apply collect_metrics_rows in H.
    apply Forall2_nil_inv_r in H.
    destruct (raw !! n) as [df|] eqn:E; [|reflexivity].
    assert (Hin : In n (present raw levels)).
    { apply present_In. split; [assumption|]. rewrite E. eauto. }
    rewrite H in Hin. destruct Hin.
  - intros H. induction levels as [|n ns IH]; [reflexivity|].
    rewrite (collect_metrics_cons_absent n ns raw (H n (or_introl eq_refl))).
    apply IH. intros k Hk. apply H. now right.
Qed.

(** X12.  An aggregate row without the two count columns is reported
    with the defaults of the lookups: 1 request, 0 failures, 0 % errors. *)
Theorem run_metrics_without_count_columns
    (n : Z) (df : DataFrame) (r : Series) :
  get_aggregated df = Ok r ->
  cells r !! "Request Count"%string = None ->
  cells r !! "Failure Count"%string = None ->
  exists m,
    run_metrics n df = Ok m /\
    Total m = 1%Z /\ Failures m = 0%Z /\ Error_pct m == 0.
Proof.
  intros Hr Ht Hf.
  assert (Hgt : get r "Request Count" (Num 1) = Num 1)
    by (unfold get; now rewrite Ht).
  assert (Hgf : get r "Failure Count" (Num 0) = Num 0)
    by (unfold get; now rewrite Hf).
  destruct (run_metrics_numeric n df r 0 1 Hr Hgf Hgt)
    as (m & Hm & _ & HF & HT & HE & _).
  exists m. split; [assumption|]. rewrite HT, HF, HE.
  repeat split; reflexivity.
Qed.

Lemma run_metrics_without_count_columns_witness :
  exists m,
    run_metrics 10 [example_row] = Ok m /\
    Total m = 1%Z /\ Failures m = 0%Z /\ Error_pct m == 0.
Proof.
  apply (run_metrics_without_count_columns 10 [example_row] example_row);
    reflexivity.
Defined.

(** * Properties of the charts *)

(** ** The SLA chart *)

Lemma py_max_ge (a b : Q) : a <= py_max a b /\ b <= py_max a b.
Proof.
  unfold py_max. destruct (Qltb a b) eqn:E.
  - apply Qltb_lt in E. lra.
  - apply Qltb_ge in E. lra.
Qed.

Lemma py_max_le (a b bound : Q) :
  a <= bound -> b <= bound -> py_max a b <= bound.
Proof. unfold py_max. destruct (Qltb a b); intros; assumption. Qed.

Lemma fold_py_max_ge (vs : list Q) (v : Q) :
  v <= fold_left py_max vs v /\
  forall x, In x vs -> x <= fold_left py_max vs v.
Proof.
  revert v. induction vs as [|a vs IH]; intros v; simpl.
  - split; [lra|]. intros x [].
  - destruct (IH (py_max v a)) as [H1 H2].
    destruct (py_max_ge v a) as [Hv Ha]. split; [lra|].
    intros x [<-|Hx]; [lra|]. now apply H2.
Qed.

Lemma fold_py_max_le (vs : list Q) (v bound : Q) :
  v <= bound -> (forall x, In x vs -> x <= bound) ->
  fold_left py_max vs v <= bound.
Proof.
  revert v. induction vs as [|a vs IH]; intros v Hv Hall; simpl; [assumption|].
  apply IH.
  - apply py_max_le; [assumption|]. apply Hall. now left.
  - intros x Hx. apply Hall. now right.
Qed.

Lemma sla_ylim_bounds (vals : list Q) (bound : Q) :
  vals <> [] ->
  (forall v, In v vals -> v <= bound) ->
  exists top,
    sla_ylim vals = Ok (0, top) /\
    10 <= top /\
    top <= py_max (bound * 1.3) 10 /\
    (0 <= bound -> forall v, In v vals -> v <= top).
Proof.
  intros Hne Hb. destruct vals as [|v0 vs]; [contradiction|].
  unfold sla_ylim, py_max_list. simpl.
  set (mx := fold_left py_max vs v0).
  destruct (fold_py_max_ge vs v0) as [H0 Hrest]. fold mx in H0, Hrest.
  assert (Hmx : mx <= bound).
  { apply fold_py_max_le; [apply Hb; now left|].
    intros x Hx. apply Hb. now right. }
  exists (py_max (mx * 1.3) 10). split; [reflexivity|].
  destruct (py_max_ge (mx * 1.3) 10) as [Ha Hten].
  split; [assumption|]. split.
  - apply py_max_le; [|apply py_max_ge].
    destruct (py_max_ge (bound * 1.3) 10). lra.
  - intros Hb0 v Hv.
    assert (Hvm : v <= mx) by (destruct Hv as [<-|Hv]; [assumption|now apply Hrest]).
    destruct (Qlt_le_dec mx 0) as [Hneg|Hpos]; lra.
Qed.

(** X13.  In the SLA chart of a returned, non-empty table the y-axis
    runs from 0 to a top between 10 and 130, and every bar lies within
    it. *)
Theorem sla_chart_axis_contains_bars
    (levels : list Z) (raw : gmap Z DataFrame) (rows : list RunMetrics) :
  collect_metrics levels raw = Ok rows ->
  rows <> [] ->
  exists top,
    sla_ylim (map SLA_Viol_pct rows) = Ok (0, top) /\
    10 <= top <= 130 /\
    forall m, In m rows -> 0 <= SLA_Viol_pct m <= top.
Proof.
  intros Hrows Hne.
  assert (Hrange : forall m, In m rows -> 0 <= SLA_Viol_pct m <= 100).
  { intros m Hm. apply collect_metrics_rows in Hrows.
    destruct (Forall2_row_of_level_In raw _ rows m Hrows Hm)
      as (n & df & _ & _ & Hrun).
    destruct (run_metrics_Ok_inv n df m Hrun)
      as (r & f & t & _ & _ & _ & _ & _ & _ & _ & Hest).
    destruct (estimate_row_range r SLA_THRESHOLD_MS) as (v & Hv & Hr).
    rewrite Hv in Hest. injection Hest as <-.
    destruct Hr as [->|Hr]; lra. }
  destruct (sla_ylim_bounds (map SLA_Viol_pct rows) 100) as (top & Htop & H10 & Hup & Hfit).
  - destruct rows; [contradiction|discriminate].
  - intros v Hv. apply List.in_map_iff in Hv. destruct Hv as (m & <- & Hm).
    apply (Hrange m Hm).
  - exists top. split; [assumption|]. split.
    + split; [assumption|]. revert Hup. unfold py_max. simpl. intros H.
      lra.
    + intros m Hm. split; [apply (Hrange m Hm)|].
      apply Hfit; [lra|]. apply List.in_map. assumption.
Qed.

Lemma sla_chart_axis_contains_bars_witness :
  exists rows top,
    collect_metrics [10; 50]%Z example_raw = Ok rows /\
    rows <> [] /\
    sla_ylim (map SLA_Viol_pct rows) = Ok (0, top) /\
    10 <= top <= 130 /\
    forall m, In m rows -> 0 <= SLA_Viol_pct m <= top.
Proof.
  eexists.
  edestruct (sla_chart_axis_contains_bars [10; 50]%Z example_raw)
    as (top & H1 & H2 & H3).
  - reflexivity.
  - discriminate.
  - exists top. split; [reflexivity|]. split; [discriminate|].
    split; [exact H1|]. split; [exact H2|exact H3].
Defined.

Lemma palette_distinct : GREEN <> AMBER /\ AMBER <> RED /\ GREEN <> RED.
Proof. unfold GREEN, AMBER, RED. repeat split; discriminate. Qed.

(** X14.  The three colours of the SLA chart split the values at 5 and
    20: green exactly below 5, red exactly from 20 on, amber in between;
    so a greater value never gets a milder colour. *)
Theorem sla_color_thresholds (v : Q) :
  (sla_color v = GREEN <-> v < 5) /\
  (sla_color v = AMBER <-> 5 <= v /\ v < 20) /\
  (sla_color v = RED <-> 20 <= v) /\
  (forall w, v <= w ->
     (sla_color w = GREEN -> sla_color v = GREEN) /\
     (sla_color v = RED -> sla_color w = RED)).
Proof.
  destruct palette_distinct as (Hga & Har & Hgr).
  assert (Hg : forall x, sla_color x = GREEN <-> x < 5).
  { intros x. unfold sla_color.
    destruct (Qltb x 5) eqn:E5; [|destruct (Qltb x 20) eqn:E20].
    - apply Qltb_lt in E5. tauto.
    - apply Qltb_ge in E5. split; [congruence|lra].
    - apply Qltb_ge in E5. split; [congruence|lra]. }
  assert (Hr : forall x, sla_color x = RED <-> 20 <= x).
  { intros x. unfold sla_color.
    destruct (Qltb x 5) eqn:E5; [|destruct (Qltb x 20) eqn:E20].
    - apply Qltb_lt in E5. split; [congruence|lra].
    - apply Qltb_lt in E20. split; [congruence|lra].
    - apply Qltb_ge in E20. tauto. }
  split; [apply Hg|]. split; [|split; [apply Hr|]].
  - unfold sla_color.
    destruct (Qltb v 5) eqn:E5; [|destruct (Qltb v 20) eqn:E20].
    + apply Qltb_lt in E5. split; [congruence|lra].
    + apply Qltb_ge in E5. apply Qltb_lt in E20. tauto.
    + apply Qltb_ge in E20. split; [congruence|lra].
  - intros w Hvw. split.
    + rewrite !Hg. lra.
    + rewrite !Hr. lra.
Qed.

(** ** The per-endpoint chart *)

Lemma split_on_nonempty (sep : ascii) (s : string) : split_on sep s <> [].
Proof.
  destruct s as [|c rest]; simpl; [discriminate|].
  destruct (Ascii.eqb c sep); [discriminate|].
  destruct (split_on sep rest); discriminate.
Qed.

Lemma join_cons_string (sep c : ascii) (seg : string) (segs : list string) :
  join sep (String c seg :: segs) = String c (join sep (seg :: segs)).
Proof. destruct segs; reflexivity. Qed.

Lemma join_split_on (sep : ascii) (s : string) : join sep (split_on sep s) = s.
Proof.
  induction s as [|c rest IH]; [reflexivity|]. simpl.
  destruct (Ascii.eqb c sep) eqn:E.
  - apply Ascii.eqb_eq in E. subst c.
    destruct (split_on sep rest) as [|seg segs] eqn:Es.
    + now apply split_on_nonempty in Es.
    + change (join sep (EmptyString :: seg :: segs))
        with (String sep (join sep (seg :: segs))).
      now rewrite IH.
  - destruct (split_on sep rest) as [|seg segs] eqn:Es.
    + now apply split_on_nonempty in Es.
    + rewrite join_cons_string. now rewrite IH.
Qed.

Lemma split_on_segments_clean (sep : ascii) (s seg : string) :
  In seg (split_on sep s) -> ~ occurs sep seg.
Proof.
  revert seg. induction s as [|c rest IH]; intros seg; simpl.
  - intros [<-|[]]. simpl. tauto.
  - destruct (Ascii.eqb c sep) eqn:E.
    + intros [<-|Hin]; [simpl; tauto|]. now apply IH.
    + apply Ascii.eqb_neq in E.
      destruct (split_on sep rest) as [|seg0 segs] eqn:Es.
      * now apply split_on_nonempty in Es.
      * intros [<-|Hin].
        -- simpl. intros [Hc|Hocc]; [contradiction|].
           apply (IH seg0); [now left|assumption].
        -- apply IH. now right.
Qed.

(** X15.  Splitting on a character and joining with it again gives the
    string back; the split is never empty, and no segment contains the
    separator. *)
Theorem split_on_join_roundtrip (sep : ascii) (s : string) :
  join sep (split_on sep s) = s /\
  split_on sep s <> [] /\
  forall seg, In seg (split_on sep s) -> ~ occurs sep seg.
Proof.
  split; [apply join_split_on|]. split; [apply split_on_nonempty|].
  intros seg. apply split_on_segments_clean.
Qed.

Lemma append_assoc (a b c : string) :
  String.append (String.append a b) c = String.append a (String.append b c).
Proof.
  induction a as [|x a IH]; [reflexivity|].
  change (String x (String.append (String.append a b) c)
          = String x (String.append a (String.append b c))).
  now rewrite IH.
Qed.

Lemma join_snoc (sep : ascii) (init : list string) (seg : string) :
  init <> [] ->
  join sep (init ++ [seg]) =
  String.append (String.append (join sep init) (String sep EmptyString)) seg.
Proof.
  induction init as [|a init IH]; intros Hne; [contradiction|].
  destruct init as [|b init].
  - rewrite append_assoc. reflexivity.
  - change (join sep ((a :: b :: init) ++ [seg]))
      with (String.append a (String sep (join sep ((b :: init) ++ [seg])))).
    rewrite IH by discriminate.
    change (join sep (a :: b :: init))
      with (String.append a (String sep (join sep (b :: init)))).
    rewrite !append_assoc. reflexivity.
Qed.

Lemma last_segment_suffix (sep : ascii) (n seg : string) :
  last (split_on sep n) = Some seg ->
  ~ occurs sep seg /\
  (n = seg \/
   exists pre, n = String.append (String.append pre (String sep EmptyString)) seg).
Proof.
  intros Hl. pose proof Hl as Hin.
  apply last_Some in Hl. destruct Hl as [init Hinit].
  split.
  - apply (split_on_segments_clean sep n). rewrite Hinit.
    apply List.in_or_app. right. now left.
  - pose proof (join_split_on sep n) as Hj. rewrite Hinit in Hj.
    destruct init as [|a init].
    + left. simpl in Hj. now symmetry.
    + right. exists (join sep (a :: init)).
      rewrite <- Hj. apply join_snoc. discriminate.
Qed.

(** X16.  The label of an endpoint whose name is not in [name_map] is
    what follows the last slash of the name: it contains no slash, and
    the name is the label itself or ends with a slash followed by the
    label. *)
Theorem endpoint_label_is_last_segment (n : string) :
  name_map !! n = None ->
  ~ occurs "/" (endpoint_label n) /\
  (n = endpoint_label n \/
   exists pre,
     n = String.append (String.append pre "/") (endpoint_label n)).
Proof.
  intros Hmap. unfold endpoint_label. rewrite Hmap.
  destruct (last (split_on "/" n)) as [seg|] eqn:El.
  - apply (last_segment_suffix "/" n seg El).
  - apply last_None in El. now apply split_on_nonempty in El.
Qed.

Lemma endpoint_label_is_last_segment_witness :
  ~ occurs "/" (endpoint_label "/api/images/thumb") /\
  ("/api/images/thumb"%string = endpoint_label "/api/images/thumb" \/
   exists pre,
     "/api/images/thumb"%string
     = String.append (String.append pre "/") (endpoint_label "/api/images/thumb")).
Proof.
  apply (endpoint_label_is_last_segment "/api/images/thumb"). reflexivity.
Defined.

Example endpoint_label_unmapped : endpoint_label "/api/images/thumb" = "thumb"%string.
Proof. reflexivity. Qed.

Example endpoint_label_mapped :
  endpoint_label "/tools.descartes.teastore.webui/home" = "Home Page
(banner images)"%string.
Proof. reflexivity. Qed.

Lemma fold_Z_max_spec (ns : list Z) (n : Z) :
  (n <= fold_left Z.max ns n)%Z /\
  (forall k, In k ns -> (k <= fold_left Z.max ns n)%Z) /\
  In (fold_left Z.max ns n) (n :: ns).
Proof.
  revert n. induction ns as [|a ns IH]; intros n; simpl.
  - split; [lia|]. split; [intros k []|now left].
  - destruct (IH (Z.max n a)) as (H1 & H2 & H3).
    split; [lia|]. split.
    + intros k [<-|Hk]; [lia|]. now apply H2.
    + destruct H3 as [H3|H3]; [|right; now right].
      rewrite <- H3.
      destruct (Z.max_spec n a) as [[_ ->]|[_ ->]];
        [right; left; reflexivity | left; reflexivity].
Qed.

Lemma py_max_Z_is_max (l : list Z) :
  l <> [] -> exists mx, py_max_Z l = Ok mx /\ is_max mx l.
Proof.
  destruct l as [|n ns]; [contradiction|]. intros _.
  exists (fold_left Z.max ns n). split; [reflexivity|].
  destruct (fold_Z_max_spec ns n) as (H1 & H2 & H3).
  split; [assumption|]. intros k [<-|Hk]; [assumption|now apply H2].
Qed.

Lemma endpoint_rows_of_spec (df : DataFrame) (r : Series) :
  In r (endpoint_rows_of df) <-> In r df /\ Name r <> "Aggregated"%string.
Proof.
  unfold endpoint_rows_of. rewrite List.filter_In, negb_true_iff.
  split; intros [Hin H]; (split; [assumption|]).
  - intros Hn. apply is_aggregated_spec in Hn. congruence.
  - destruct (is_aggregated r) eqn:E; [|reflexivity].
    apply is_aggregated_spec in E. contradiction.
Qed.

Lemma column_Ok (col : string) (ep : list Series) (cs : list cell) :
  column col ep = Ok cs ->
  Forall2 (fun r c => cells r !! col = Some c) ep cs.
Proof.
  revert cs. induction ep as [|r ep IH]; intros cs; simpl.
  - intros [= <-]. constructor.
  - destruct (cells r !! col) as [c|] eqn:Ec; [|discriminate].
    destruct (column col ep) as [cs'|e]; [|discriminate]. simpl.
    intros [= <-]. constructor; [assumption|]. now apply IH.
Qed.

Lemma column_Raise_inv (col : string) (ep : list Series) (e : exn) :
  column col ep = Raise e ->
  e = KeyError col /\ exists r, In r ep /\ cells r !! col = None.
Proof.
  induction ep as [|r ep IH]; simpl; [discriminate|].
  destruct (cells r !! col) as [c|] eqn:Ec.
  - destruct (column col ep) as [cs|e'] eqn:Ecol; simpl; [discriminate|].
    intros [= <-]. destruct (IH eq_refl) as (He & r' & Hin & Hn).
    split; [assumption|]. exists r'. tauto.
  - intros [= <-]. split; [reflexivity|]. exists r. tauto.
Qed.

Lemma column_Raise_intro (col : string) (ep : list Series) :
  (exists r, In r ep /\ cells r !! col = None) ->
  column col ep = Raise (KeyError col).
Proof.
  induction ep as [|r ep IH]; simpl; intros (r' & Hin & Hnone);
    [destruct Hin|].
  destruct (cells r !! col) as [c|] eqn:Ec; [|reflexivity].
  destruct Hin as [<-|Hin]; [congruence|].
  rewrite IH by (exists r'; tauto). reflexivity.
Qed.

Lemma column_Raise (col : string) (ep : list Series) (e : exn) :
  column col ep = Raise e <->
  e = KeyError col /\ exists r, In r ep /\ cells r !! col = None.
Proof.
  split; [apply column_Raise_inv|].
  intros (-> & H). now apply column_Raise_intro.
Qed.

(** The bars built from rows and the cells of their column. *)
Lemma bars_of_rows (f : Series -> string) (col : string) (c : nat -> string)
    (ep : list Series) (cs : list cell) :
  Forall2 (fun r x => cells r !! col = Some x) ep cs ->
  Forall2 (fun r bar =>
             bar_label bar = f r /\
             cells r !! col = Some (bar_length bar))
    ep
    (imap (fun i nl => {| bar_label := fst nl;
                          bar_length := snd nl;
                          bar_color := c i |})
          (zip (map f ep) cs)).
Proof.
  intros H. revert c. induction H as [|r x ep cs Hx _ IH]; intros c.
  - constructor.
  - cbn [map zip zip_with]. rewrite imap_cons. constructor.
    + simpl. split; [reflexivity|assumption].
    + apply (IH (fun i => c (S i))).
Qed.



(** With the column: two bars.  Without it: [KeyError]. *)
Example chart_per_endpoint_example :
  chart_per_endpoint USER_COUNTS endpoint_raw
  = Ok (Some [ {| bar_label := "[id]"; bar_length := Num 35;
                  bar_color := BLUE |};
               {| bar_label := "orders"; bar_length := Num 80;
                  bar_color := PURPLE |} ]).
Proof. reflexivity. Qed.

Example chart_per_endpoint_missing_column :
  chart_per_endpoint USER_COUNTS {[ 200%Z := example_frame ]}
  = Raise (KeyError "Average Response Time").
Proof. reflexivity. Qed.

(** * Properties of the persistence report *)

Lemma plot_aggregated_inr (df : DataFrame) (r : Series) :
  PlotResults.aggregated df = inr r <->
  get_aggregated df = Ok r /\ Name r = "Aggregated"%string.
Proof.
  unfold PlotResults.aggregated, get_aggregated, iloc_last.
  destruct (List.filter is_aggregated df) as [|a agg] eqn:Ef.
  - split; [discriminate|]. intros [Hr Hn]. exfalso.
    destruct (last df) as [x|] eqn:El; [|discriminate].
    injection Hr as ->.
    apply last_Some_elem_of, list_elem_of_In in El.
    apply is_aggregated_spec in Hn.
    rewrite (filter_nil_all _ _ Ef r El) in Hn. discriminate.
  - destruct (filter_head_In _ _ _ _ Ef) as [_ Ha].
    apply is_aggregated_spec in Ha. split.
    + intros [= <-]. split; [reflexivity|assumption].
    + intros [[= <-] _]. reflexivity.
Qed.

Lemma plot_aggregated_inl (df : DataFrame) (e : PlotResults.error) :
  PlotResults.aggregated df = inl e <->
  e = PlotResults.IndexError /\
  forall x, In x df -> Name x <> "Aggregated"%string.
Proof.
  unfold PlotResults.aggregated.
  destruct (List.filter is_aggregated df) as [|a agg] eqn:Ef.
  - split.
    + intros [= <-]. split; [reflexivity|]. intros x Hx Hn.
      apply is_aggregated_spec in Hn.
      rewrite (filter_nil_all _ _ Ef x Hx) in Hn. discriminate.
    + intros [-> _]. reflexivity.
  - split; [discriminate|]. intros [_ Hall]. exfalso.
    destruct (filter_head_In _ _ _ _ Ef) as [Hin Ha].
    apply is_aggregated_spec in Ha. now apply (Hall a Hin).
Qed.

(** X18.  The two reducers agree whenever the frame has an
    ["Aggregated"] row, and differ otherwise: the persistence report has
    no fallback and stops with [IndexError] where the image report takes
    the last row. *)
Theorem plot_results_has_no_fallback (df : DataFrame) :
  (forall r, PlotResults.aggregated df = inr r <->
             get_aggregated df = Ok r /\ Name r = "Aggregated"%string)
  /\ (forall e, PlotResults.aggregated df = inl e <->
                e = PlotResults.IndexError /\
                forall x, In x df -> Name x <> "Aggregated"%string)
  /\ (df <> [] ->
      (forall x, In x df -> Name x <> "Aggregated"%string) ->
      forall u,
        PlotResults.summary_row u df = inl PlotResults.IndexError /\
        exists r, last df = Some r /\ get_aggregated df = Ok r).
Proof.
  split; [intros r; apply plot_aggregated_inr|].
  split; [intros e; apply plot_aggregated_inl|].
  intros Hne Hall u. split.
  - unfold PlotResults.summary_row.
    rewrite (proj2 (plot_aggregated_inl df PlotResults.IndexError)
               (conj eq_refl Hall)).
    reflexivity.
  - now apply get_aggregated_fallback.
Qed.

Lemma plot_error_pct_positive (f t : Q) :
  0 < t -> PlotResults.error_pct (Num f) (Num t) = Num (f / t * 100).
Proof.
  intros Ht. unfold PlotResults.error_pct.
  now rewrite (proj2 (Qltb_lt 0 t) Ht).
Qed.

Lemma plot_error_pct_guard (fails : cell) (t : Q) :
  t <= 0 -> PlotResults.error_pct fails (Num t) = Num 0.
Proof.
  intros Ht. unfold PlotResults.error_pct.
  now rewrite (proj2 (Qltb_ge 0 t) Ht).
Qed.

(** X19.  The error percentage of the persistence report is 0 when the
    request count is missing, zero or negative, whatever the failure
    count; for a positive request count it is [fails / total * 100],
    which lies in [0, 100] when [0 <= fails <= total]. *)
Theorem plot_results_error_pct :
  (forall fails, PlotResults.error_pct fails NaN = Num 0)
  /\ (forall fails t, t <= 0 -> PlotResults.error_pct fails (Num t) = Num 0)
  /\ (forall f t,
        0 < t ->
        PlotResults.error_pct (Num f) (Num t) = Num (f / t * 100) /\
        (0 <= f -> f <= t -> 0 <= f / t * 100 <= 100)).
Proof.
  split; [reflexivity|]. split; [apply plot_error_pct_guard|].
  intros f t Ht. split; [now apply plot_error_pct_positive|].
  intros Hf Hft.
  assert (0 <= f / t) by (apply Qle_shift_div_l; lra).
  assert (f / t <= 1) by (apply Qle_shift_div_r; lra).
  lra.
Qed.

Lemma getitem_inr (row : Series) (col : string) (c : cell) :
  PlotResults.getitem row col = inr c <-> cells row !! col = Some c.
Proof.
  unfold PlotResults.getitem. destruct (cells row !! col); split;
    intros H; try discriminate; congruence.
Qed.

(** What an entry of [summary] was computed from. *)
Lemma summary_row_inv (u : Z) (df : DataFrame) (s : PlotResults.SummaryRow) :
  PlotResults.summary_row u df = inr s ->
  exists agg total fails,
    PlotResults.aggregated df = inr agg /\
    cells agg !! "Request Count"%string = Some total /\
    cells agg !! "Failure Count"%string = Some fails /\
    PlotResults.users s = u /\
    PlotResults.err_pct s = PlotResults.error_pct fails total.
Proof.
  unfold PlotResults.summary_row.
  destruct (PlotResults.aggregated df) as [e|agg]; [discriminate|]. simpl.
  destruct (PlotResults.getitem agg "Request Count") as [e|total] eqn:Et;
    [discriminate|]. simpl.
  destruct (PlotResults.getitem agg "Failure Count") as [e|fails] eqn:Ef;
    [discriminate|]. simpl.
  destruct (PlotResults.getitem agg "Requests/s"); [discriminate|]. simpl.
  destruct (PlotResults.getitem agg "Average Response Time"); [discriminate|].
  simpl.
  destruct (PlotResults.getitem agg "50%"); [discriminate|]. simpl.
  destruct (PlotResults.getitem agg "95%"); [discriminate|]. simpl.
  destruct (PlotResults.getitem agg "99%"); [discriminate|]. simpl.
  intros [= <-]. exists agg, total, fails.
  apply getitem_inr in Et. apply getitem_inr in Ef.
  repeat split; first [reflexivity | assumption].
Qed.

Lemma py_max_1_id (t : Q) : 1 <= t -> py_max t 1 = t.
Proof.
  intros Ht. unfold py_max. now rewrite (proj2 (Qltb_ge t 1) Ht).
Qed.

Lemma py_max_1_clamp (t : Q) : t <= 0 -> py_max t 1 = 1.
Proof.
  intros Ht. unfold py_max.
  rewrite (proj2 (Qltb_lt t 1)); [reflexivity|lra].
Qed.

(** X20.  On a frame both reports can process, the error percentages
    coincide when the aggregate row counts at least one request.  With a
    request count of zero or less the persistence report shows 0 while
    the image report shows [failures * 100]. *)
Theorem error_percentages_agree_from_one_request
    (u : Z) (df : DataFrame) (s : PlotResults.SummaryRow) (m : RunMetrics)
    (r : Series) (t : Q) :
  PlotResults.summary_row u df = inr s ->
  run_metrics u df = Ok m ->
  PlotResults.aggregated df = inr r ->
  cells r !! "Request Count"%string = Some (Num t) ->
  (1 <= t -> PlotResults.err_pct s = Num (Error_pct m))
  /\ (t <= 0 ->
      PlotResults.err_pct s = Num 0 /\
      exists f, cells r !! "Failure Count"%string = Some (Num f) /\
                Error_pct m == f * 100).
Proof.
  intros Hs Hm Hr Ht.
  destruct (summary_row_inv u df s Hs)
    as (agg & total & fails & Hagg & Htot & Hfails & _ & Herr).
  rewrite Hr in Hagg. injection Hagg as <-.
  rewrite Ht in Htot. injection Htot as <-.
  destruct (run_metrics_Ok_inv u df m Hm)
    as (r' & f & t' & Hr' & Hf & Ht' & _ & _ & _ & HE & _).
  apply plot_aggregated_inr in Hr. destruct Hr as [Hr _].
  rewrite Hr in Hr'. injection Hr' as <-.
  unfold get in Hf, Ht'. rewrite Hfails in Hf. rewrite Ht in Ht'.
  subst fails. injection Ht' as <-.
  rewrite Herr, HE. split.
  - intros H1. rewrite plot_error_pct_positive by lra.
    now rewrite py_max_1_id.
  - intros H0. split; [now apply plot_error_pct_guard|].
    exists f. split; [assumption|].
    rewrite py_max_1_clamp by assumption. field.
Qed.

Lemma error_percentages_agree_from_one_request_witness :
  exists s m,
    PlotResults.summary_row 10 persistence_frame = inr s /\
    run_metrics 10 persistence_frame = Ok m /\
    PlotResults.err_pct s = Num (Error_pct m).
Proof.
  eexists. eexists. split; [reflexivity|]. split; [reflexivity|].
  refine (proj1 (error_percentages_agree_from_one_request
                   10 persistence_frame _ _
                   (stats_row "Aggregated" 100 2 53) 100
                   eq_refl eq_refl eq_refl eq_refl) _).
  unfold Qle. simpl. lia.
Defined.

Lemma endpoint_rows_names (u : Z) (rows : list Series) eps :
  PlotResults.endpoint_rows u rows = inr eps ->
  map (fun e => (PlotResults.ep_users e, PlotResults.endpoint e)) eps
  = map (fun r => (u, Name r)) (endpoint_rows_of rows).
Proof.
  revert eps. induction rows as [|row rows IH]; intros eps; simpl.
  - intros [= <-]. reflexivity.
  - unfold endpoint_rows_of. simpl. fold (endpoint_rows_of rows).
    destruct (is_aggregated row); simpl; [apply IH|].
    unfold PlotResults.endpoint_row_of.
    destruct (PlotResults.getitem row "Average Response Time");
      [discriminate|]. simpl.
    destruct (PlotResults.getitem row "95%"); [discriminate|]. simpl.
    destruct (PlotResults.getitem row "Requests/s"); [discriminate|]. simpl.
    destruct (PlotResults.endpoint_rows u rows) as [e|es]; [discriminate|].
    simpl. intros [= <-]. simpl. f_equal. now apply IH.
Qed.

Lemma summary_row_users (u : Z) (df : DataFrame) s :
  PlotResults.summary_row u df = inr s -> PlotResults.users s = u.
Proof.
  intros H. destruct (summary_row_inv u df s H) as (? & ? & ? & _ & _ & _ & Hu & _).
  exact Hu.
Qed.

Lemma load_cons_absent (u : Z) us (raw : gmap Z DataFrame) :
  raw !! u = None ->
  PlotResults.load (u :: us) raw = PlotResults.load us raw.
Proof. intros H. simpl. now rewrite H. Qed.

Lemma load_cons_present (u : Z) us (raw : gmap Z DataFrame) df :
  raw !! u = Some df ->
  PlotResults.load (u :: us) raw =
  PlotResults.bind (PlotResults.summary_row u df) (fun srow =>
  PlotResults.bind (PlotResults.endpoint_rows u df) (fun eps =>
  PlotResults.bind (PlotResults.load us raw) (fun '(summary, per_ep) =>
  inr (srow :: summary, eps ++ per_ep)))).
Proof. intros H. simpl. now rewrite H. Qed.

(** X21.  When the loading loop of the persistence report runs through,
    [summary] has one entry per requested level with a file, in the
    order of the list, and [per_ep] lists, level by level, the rows not
    named ["Aggregated"] in frame order. *)
Theorem plot_results_load_order
    (levels : list Z) (raw : gmap Z DataFrame)
    (summary : list PlotResults.SummaryRow)
    (per_ep : list PlotResults.EndpointRow) :
  PlotResults.load levels raw = inr (summary, per_ep) ->
  map PlotResults.users summary = present raw levels /\
  map (fun e => (PlotResults.ep_users e, PlotResults.endpoint e)) per_ep
  = flat_map (endpoints_of_level raw) levels.
Proof.
  revert summary per_ep.
  induction levels as [|u us IH]; intros summary per_ep.
  - simpl. intros [= <- <-]. split; reflexivity.
  - destruct (raw !! u) as [df|] eqn:E.
    + rewrite (load_cons_present u us raw df E).
      rewrite (present_cons_Some raw u us df E).
      destruct (PlotResults.summary_row u df) as [e|srow] eqn:Es;
        [discriminate|]. simpl.
      destruct (PlotResults.endpoint_rows u df) as [e|eps] eqn:Ee;
        [discriminate|]. simpl.
      destruct (PlotResults.load us raw) as [e|[summary' per_ep']];
        [discriminate|]. simpl.
      intros [= <- <-]. destruct (IH summary' per_ep' eq_refl) as [IH1 IH2].
      split.
      * simpl. rewrite IH1. f_equal. now apply (summary_row_users u df).
      * rewrite List.map_app, IH2. simpl. f_equal.
        unfold endpoints_of_level. rewrite E.
        now apply endpoint_rows_names.
    + rewrite (load_cons_absent u us raw E).
      rewrite (present_cons_None raw u us E).
      intros H. destruct (IH summary per_ep H) as [IH1 IH2].
      split; [assumption|]. simpl. unfold endpoints_of_level at 1.
      rewrite E. simpl. assumption.
Qed.

Lemma plot_results_load_order_witness :
  exists summary per_ep,
    PlotResults.load [10; 25]%Z persistence_raw = inr (summary, per_ep) /\
    map PlotResults.users summary = [10%Z] /\
    map (fun e => (PlotResults.ep_users e, PlotResults.endpoint e)) per_ep
    = [(10%Z, "GET /users/[id]"%string); (10%Z, "POST /orders"%string)].
Proof.
  eexists. eexists. split; [reflexivity|].
  refine (plot_results_load_order [10; 25]%Z persistence_raw _ _ eq_refl).
Defined.



Lemma fold_Z_min_spec (ns : list Z) (n : Z) :
  (fold_left Z.min ns n <= n)%Z /\
  (forall k, In k ns -> (fold_left Z.min ns n <= k)%Z) /\
  In (fold_left Z.min ns n) (n :: ns).
Proof.
  revert n. induction ns as [|a ns IH]; intros n; simpl.
  - split; [lia|]. split; [intros k []|now left].
  - destruct (IH (Z.min n a)) as (H1 & H2 & H3).
    split; [lia|]. split.
    + intros k [<-|Hk]; [lia|]. now apply H2.
    + destruct H3 as [H3|H3]; [|right; now right].
      rewrite <- H3.
      destruct (Z.min_spec n a) as [[_ ->]|[_ ->]];
        [left; reflexivity | right; left; reflexivity].
Qed.

Lemma first_with_users_found (b : Z) (summary : list PlotResults.SummaryRow) :
  In b (map PlotResults.users summary) ->
  exists r, first_with_users (Some b) summary = inr r /\
            In r summary /\ PlotResults.users r = b.
Proof.
  intros Hin. apply List.in_map_iff in Hin. destruct Hin as (s & Hs & Hin).
  unfold first_with_users.
  destruct (List.filter (fun s => Z.eqb (PlotResults.users s) b) summary)
    as [|r rs] eqn:Ef.
  - exfalso. pose proof (filter_nil_all _ _ Ef s Hin) as H. simpl in H.
    apply Z.eqb_neq in H. contradiction.
  - destruct (filter_head_In _ _ _ _ Ef) as [Hr Hb]. apply Z.eqb_eq in Hb.
    exists r. split; [reflexivity|]. split; assumption.
Qed.

(** X24.  On a non-empty summary the baseline and the peak are found
    (no [IndexError]): they are rows of the summary with the least and
    the greatest user count. *)
Theorem baseline_and_peak (summary : list PlotResults.SummaryRow) :
  summary <> [] ->
  exists b p,
    baseline summary = inr b /\ peak summary = inr p /\
    In b summary /\ In p summary /\
    forall s, In s summary ->
      (PlotResults.users b <= PlotResults.users s <= PlotResults.users p)%Z.
Proof.
  intros Hne. destruct summary as [|s0 rest]; [contradiction|].
  unfold baseline, peak, users_min, users_max.
  cbn [map].
  destruct (fold_Z_min_spec (map PlotResults.users rest) (PlotResults.users s0))
    as (Hmin0 & Hmin & Hmin_in).
  destruct (fold_Z_max_spec (map PlotResults.users rest) (PlotResults.users s0))
    as (Hmax0 & Hmax & Hmax_in).
  destruct (first_with_users_found _ (s0 :: rest) Hmin_in) as (b & Hb & Hbin & Hbu).
  destruct (first_with_users_found _ (s0 :: rest) Hmax_in) as (p & Hp & Hpin & Hpu).
  exists b, p. repeat (split; [assumption|]).
  intros s [<-|Hs]; rewrite Hbu, Hpu.
  - lia.
  - assert (Hin : In (PlotResults.users s) (map PlotResults.users rest))
      by (apply List.in_map; assumption).
    split; [now apply Hmin | now apply Hmax].
Qed.

Lemma baseline_and_peak_witness :
  exists summary per_ep b p,
    PlotResults.load [10; 25]%Z persistence_raw = inr (summary, per_ep) /\
    baseline summary = inr b /\ peak summary = inr p /\
    In b summary /\ In p summary /\
    forall s, In s summary ->
      (PlotResults.users b <= PlotResults.users s <= PlotResults.users p)%Z.
Proof.
  eexists. eexists.
  edestruct (baseline_and_peak) as (b & p & H).
  2: { exists b, p. split; [reflexivity|]. exact H. }
  discriminate.
Defined.
